(** * Elevation mapping: the raw/fused grid update engine

    A shallow embedding of [ElevationMap.cpp] (point integration, exogenous
    variance update, variance clamp, neighbourhood fusion) and of
    [VarianceClampOperator] from [ElevationMappingHelpers.hpp].

    Numbers.  The C++ code computes on [float]/[double].  The embedding
    keeps the IEEE special values the code relies on (not-a-number marks a
    hole, +infinity marks a diverged variance, [std::isfinite] guards the
    fusion result) and idealises the finite values as real numbers: finite
    operations are exact, there is no rounding, no overflow and no negative
    zero.

    Locks.  [boost::recursive_mutex] guards are not modelled: every
    operation is embedded as the sequential state transformer it is while
    it holds its locks. *)

From Stdlib Require Import Reals Lra Lia ZArith NArith Bool List String.
Import ListNotations.

Set Implicit Arguments.

(** ** Scalars: reals extended with the IEEE special values *)

Inductive scalar : Type :=
| Fin (r : R)
| PInf
| NInf
| NaN.

Declare Scope scalar_scope.
Delimit Scope scalar_scope with S.
Bind Scope scalar_scope with scalar.

Inductive sign : Type := Neg | Zero | Pos.

Definition Rsign (x : R) : sign :=
  if Rlt_dec 0 x then Pos else if Rlt_dec x 0 then Neg else Zero.

Definition sign_opp (s : sign) : sign :=
  match s with Neg => Pos | Zero => Zero | Pos => Neg end.

(** The infinity carrying a given sign; a zero sign stands for the invalid
    operations [0 * inf] and [0 / 0]. *)
Definition inf_of (s : sign) : scalar :=
  match s with Pos => PInf | Neg => NInf | Zero => NaN end.

Definition sopp (a : scalar) : scalar :=
  match a with
  | Fin x => Fin (- x)
  | PInf => NInf
  | NInf => PInf
  | NaN => NaN
  end.

Definition sadd (a b : scalar) : scalar :=
  match a, b with
  | NaN, _ | _, NaN => NaN
  | Fin x, Fin y => Fin (x + y)
  | PInf, NInf | NInf, PInf => NaN
  | PInf, _ | _, PInf => PInf
  | NInf, _ | _, NInf => NInf
  end.

Definition ssub (a b : scalar) : scalar := sadd a (sopp b).

Definition smul (a b : scalar) : scalar :=
  match a, b with
  | NaN, _ | _, NaN => NaN
  | Fin x, Fin y => Fin (x * y)
  | Fin x, PInf | PInf, Fin x => inf_of (Rsign x)
  | Fin x, NInf | NInf, Fin x => inf_of (sign_opp (Rsign x))
  | PInf, PInf | NInf, NInf => PInf
  | PInf, NInf | NInf, PInf => NInf
  end.

(** Division; a zero divisor is the positive zero. *)
Definition sdiv (a b : scalar) : scalar :=
  match a, b with
  | NaN, _ | _, NaN => NaN
  | Fin x, Fin y =>
      if Req_dec_T y 0 then inf_of (Rsign x) else Fin (x / y)
  | Fin _, PInf | Fin _, NInf => Fin 0
  | PInf, Fin y => if Rlt_dec y 0 then NInf else PInf
  | NInf, Fin y => if Rlt_dec y 0 then PInf else NInf
  | PInf, PInf | PInf, NInf | NInf, PInf | NInf, NInf => NaN
  end.

Definition sabs (a : scalar) : scalar :=
  match a with
  | Fin x => Fin (Rabs x)
  | PInf | NInf => PInf
  | NaN => NaN
  end.

(** libm [sqrt]: not-a-number below zero. *)
Definition ssqrt (a : scalar) : scalar :=
  match a with
  | Fin x => if Rlt_dec x 0 then NaN else Fin (sqrt x)
  | PInf => PInf
  | NInf | NaN => NaN
  end.

(** [a < b]; every comparison with not-a-number is false. *)
Definition slt (a b : scalar) : bool :=
  match a, b with
  | NaN, _ | _, NaN => false
  | Fin x, Fin y => if Rlt_dec x y then true else false
  | NInf, NInf => false
  | NInf, _ => true
  | _, NInf => false
  | PInf, _ => false
  | Fin _, PInf => true
  end.

Definition sgt (a b : scalar) : bool := slt b a.

(** [a <= b]. *)
Definition sle (a b : scalar) : bool :=
  match a, b with
  | NaN, _ | _, NaN => false
  | Fin x, Fin y => if Rle_dec x y then true else false
  | NInf, _ => true
  | _, PInf => true
  | _, NInf => false
  | PInf, _ => false
  end.

Definition isnan (a : scalar) : bool :=
  match a with NaN => true | _ => false end.

Definition isfinite (a : scalar) : bool :=
  match a with Fin _ => true | _ => false end.

Notation "a + b" := (sadd a b) : scalar_scope.
Notation "a - b" := (ssub a b) : scalar_scope.
Notation "a * b" := (smul a b) : scalar_scope.
Notation "a / b" := (sdiv a b) : scalar_scope.
Notation "a <? b" := (slt a b) : scalar_scope.
Notation "a >? b" := (sgt a b) : scalar_scope.
Notation "a <=? b" := (sle a b) : scalar_scope.

(** [pow(x, 2)] and Eigen's [square()]. *)
Definition square (a : scalar) : scalar := (a * a)%S.

(** [x.sum()] of an Eigen array. *)
Definition sum (l : list scalar) : scalar := fold_right sadd (Fin 0) l.

(** ** [VarianceClampOperator] (ElevationMappingHelpers.hpp) *)

Module VarianceClampOperator.

Record t : Type := mk {
  minVariance_ : scalar;
  maxVariance_ : scalar
}.

(** [operator()]:
    [x < minVariance_ ? minVariance_
                      : (x > maxVariance_ ? infinity : x)]. *)
Definition operator (op : t) (x : scalar) : scalar :=
  if (x <? minVariance_ op)%S then minVariance_ op
  else if (x >? maxVariance_ op)%S then PInf
  else x.

End VarianceClampOperator.

(** ** Eigen arrays and matrices *)

(** [Eigen::Array2i]. *)
Definition Array2i : Type := (Z * Z)%type.

(** [Eigen::Vector2d] and [Eigen::Array2d]. *)
Definition Vector2d : Type := (scalar * scalar)%type.

Definition Array2i_eqb (a b : Array2i) : bool :=
  (fst a =? fst b)%Z && (snd a =? snd b)%Z.

(** [a.any()]: some coefficient is non-zero. *)
Definition any (a : Array2i) : bool :=
  negb (fst a =? 0)%Z || negb (snd a =? 0)%Z.

(** A dense matrix: its dimensions and its coefficients. *)
Record Matrix : Type := mkMatrix {
  rows : Z;
  cols : Z;
  coeff : Array2i -> scalar
}.

(** [m(i, j) = v]. *)
Definition setCoeff (m : Matrix) (index : Array2i) (v : scalar) : Matrix :=
  {| rows := rows m; cols := cols m;
     coeff := fun i => if Array2i_eqb i index then v else coeff m i |}.

(** [m.unaryExpr(f)]. *)
Definition unaryExpr (f : scalar -> scalar) (m : Matrix) : Matrix :=
  {| rows := rows m; cols := cols m; coeff := fun i => f (coeff m i) |}.

(** [m += d], for [d] of the dimensions of [m]. *)
Definition addAssign (m d : Matrix) : Matrix :=
  {| rows := rows m; cols := cols m;
     coeff := fun i => (coeff m i + coeff d i)%S |}.

(** [m.setConstant(v)]. *)
Definition setConstant (m : Matrix) (v : scalar) : Matrix :=
  {| rows := rows m; cols := cols m; coeff := fun _ => v |}.

(** [(Array2i(m.rows(), m.cols()) == bufferSize).all()]. *)
Definition sameSize (m : Matrix) (bufferSize : Array2i) : bool :=
  Array2i_eqb (rows m, cols m) bufferSize.

(** ** The grid map *)

Local Open Scope string_scope.

(** The state of a [grid_map::GridMap]: one matrix per named layer, the
    timestamp, and the geometry handed to the library's index arithmetic. *)
Record GridMap : Type := mkGridMap {
  data_ : string -> Matrix;
  timestamp_ : N;
  length_ : Vector2d;
  position_ : Vector2d;
  resolution_ : scalar;
  bufferSize_ : Array2i;
  bufferStartIndex_ : Array2i
}.

Definition withData (m : GridMap) (d : string -> Matrix) : GridMap :=
  {| data_ := d; timestamp_ := timestamp_ m; length_ := length_ m;
     position_ := position_ m; resolution_ := resolution_ m;
     bufferSize_ := bufferSize_ m; bufferStartIndex_ := bufferStartIndex_ m |}.

(** [map.get(layer)]. *)
Definition get (m : GridMap) (layer : string) : Matrix := data_ m layer.

(** [map.get(layer) = matrix]. *)
Definition setLayer (m : GridMap) (layer : string) (x : Matrix) : GridMap :=
  withData m (fun l => if String.eqb l layer then x else data_ m l).

(** [map.at(layer, index)], read. *)
Definition at_ (m : GridMap) (layer : string) (index : Array2i) : scalar :=
  coeff (get m layer) index.

(** [map.at(layer, index) = v]. *)
Definition setAt (m : GridMap) (layer : string) (index : Array2i)
    (v : scalar) : GridMap :=
  setLayer m layer (setCoeff (get m layer) index v).

Definition getTimestamp (m : GridMap) : N := timestamp_ m.

Definition setTimestamp (m : GridMap) (t : N) : GridMap :=
  {| data_ := data_ m; timestamp_ := t; length_ := length_ m;
     position_ := position_ m; resolution_ := resolution_ m;
     bufferSize_ := bufferSize_ m; bufferStartIndex_ := bufferStartIndex_ m |}.

Definition getBufferSize (m : GridMap) : Array2i := bufferSize_ m.

(** Modelled from the spec: [GridMap::isValid] is not among the sources.
    A cell is invalid when its elevation or variance is unset, the unset
    value being not-a-number; both maps are set up with the clear types
    [elevation] and [variance]. *)
Definition isValid (m : GridMap) (index : Array2i) : bool :=
  negb (isnan (at_ m "elevation" index))
  && negb (isnan (at_ m "variance" index)).

(** Modelled from the spec: [GridMap::clearAll] is not among the sources.
    It clears every layer: every cell of every layer becomes unset. *)
Definition clearAll (m : GridMap) : GridMap :=
  withData m (fun l => setConstant (data_ m l) NaN).

(** What [grid_map_lib::getSubmapInformation] writes to its out
    parameters. *)
Record SubmapInformation : Type := mkSubmapInformation {
  topLeftIndex : Array2i;
  submapBufferSize : Array2i;
  submapPosition : Vector2d;
  submapLength : Vector2d;
  requestedIndexInSubmap : Array2i
}.

(** [Eigen::Vector3i], a colour as red, green, blue. *)
Definition Vector3i : Type := (Z * Z * Z)%type.

(** The functions the code calls that are not among the sources: the grid
    map library's index arithmetic and iteration, its colour packing, and
    libm's [erfc]. *)
Class GridMapLib : Type := {
  (** [map.getIndex(position, index)]: the cell of a position, if any. *)
  getIndex : GridMap -> Vector2d -> option Array2i;
  (** [map.getPosition(index, position)]: the centre of a cell. *)
  getPosition : GridMap -> Array2i -> Vector2d;
  (** [getSubmapInformation(..., requestedPosition, requestedLength,
      mapLength, mapPosition, resolution, bufferSize, bufferStartIndex)]. *)
  getSubmapInformation :
    Vector2d -> Vector2d -> Vector2d -> Vector2d -> scalar ->
    Array2i -> Array2i -> SubmapInformation;
  (** The indices a [SubmapIterator(map, topLeftIndex, size)] visits, in
      order. *)
  SubmapIterator : GridMap -> Array2i -> Array2i -> list Array2i;
  (** [grid_map::colorVectorToValue]. *)
  colorVectorToValue : Vector3i -> scalar;
  (** libm [erfc]. *)
  erfc : scalar -> scalar
}.

(** ** The elevation map (ElevationMap.cpp) *)

(** The members of [ElevationMap] the update engine reads and writes. *)
Record ElevationMap : Type := mkElevationMap {
  rawMap_ : GridMap;
  fusedMap_ : GridMap;
  minVariance_ : scalar;
  maxVariance_ : scalar;
  mahalanobisDistanceThreshold_ : scalar;
  multiHeightNoise_ : scalar;
  minHorizontalVariance_ : scalar;
  maxHorizontalVariance_ : scalar
}.

Definition withRawMap (em : ElevationMap) (m : GridMap) : ElevationMap :=
  {| rawMap_ := m; fusedMap_ := fusedMap_ em;
     minVariance_ := minVariance_ em; maxVariance_ := maxVariance_ em;
     mahalanobisDistanceThreshold_ := mahalanobisDistanceThreshold_ em;
     multiHeightNoise_ := multiHeightNoise_ em;
     minHorizontalVariance_ := minHorizontalVariance_ em;
     maxHorizontalVariance_ := maxHorizontalVariance_ em |}.

Definition withFusedMap (em : ElevationMap) (m : GridMap) : ElevationMap :=
  {| rawMap_ := rawMap_ em; fusedMap_ := m;
     minVariance_ := minVariance_ em; maxVariance_ := maxVariance_ em;
     mahalanobisDistanceThreshold_ := mahalanobisDistanceThreshold_ em;
     multiHeightNoise_ := multiHeightNoise_ em;
     minHorizontalVariance_ := minHorizontalVariance_ em;
     maxHorizontalVariance_ := maxHorizontalVariance_ em |}.

(** [pcl::PointXYZRGB]. *)
Record PointXYZRGB : Type := mkPoint {
  x : scalar;
  y : scalar;
  z : scalar;
  getRGBVector3i : Vector3i
}.

(** [pcl::PointCloud<pcl::PointXYZRGB>]: the header stamp, in
    microseconds, and the points. *)
Record PointCloud : Type := mkPointCloud {
  stamp : N;
  points : list PointXYZRGB
}.

(** [ros::Time]. *)
Record Time : Type := mkTime {
  sec : N;
  nsec : N
}.

Definition uint64 (n : N) : N := (n mod 2 ^ 64)%N.

Definition toNSec (t : Time) : N := uint64 (sec t * 1000000000 + nsec t).

(** [ElevationMap::clean]. *)
Definition clean (em : ElevationMap) : bool * ElevationMap :=
  let rawMap := rawMap_ em in
  let rawMap := setLayer rawMap "variance"
    (unaryExpr
       (VarianceClampOperator.operator
          (VarianceClampOperator.mk (minVariance_ em) (maxVariance_ em)))
       (get rawMap "variance")) in
  let rawMap := setLayer rawMap "horizontal_variance_x"
    (unaryExpr
       (VarianceClampOperator.operator
          (VarianceClampOperator.mk (minHorizontalVariance_ em)
                                    (maxHorizontalVariance_ em)))
       (get rawMap "horizontal_variance_x")) in
  let rawMap := setLayer rawMap "horizontal_variance_y"
    (unaryExpr
       (VarianceClampOperator.operator
          (VarianceClampOperator.mk (minHorizontalVariance_ em)
                                    (maxHorizontalVariance_ em)))
       (get rawMap "horizontal_variance_y")) in
  (true, withRawMap em rawMap).

(** [ElevationMap::resetFusedData]. *)
Definition resetFusedData (em : ElevationMap) : ElevationMap :=
  withFusedMap em (setTimestamp (clearAll (fusedMap_ em)) 0).

Section WithGridMapLib.

Context {lib : GridMapLib}.

(** The body of the loop of [ElevationMap::add], for the point of index
    [i] and its variance [pointCloudVariances(i)]. *)
Definition addPoint (em : ElevationMap) (point : PointXYZRGB)
    (pointVariance : scalar) : ElevationMap :=
  let rawMap := rawMap_ em in
  match getIndex rawMap (x point, y point) with
  | None => em
  | Some index =>
      let elevation := at_ rawMap "elevation" index in
      let variance := at_ rawMap "variance" index in
      if negb (isValid rawMap index) then
        let rawMap := setAt rawMap "elevation" index (z point) in
        let rawMap := setAt rawMap "variance" index pointVariance in
        let rawMap := setAt rawMap "horizontal_variance_x" index
                        (minHorizontalVariance_ em) in
        let rawMap := setAt rawMap "horizontal_variance_y" index
                        (minHorizontalVariance_ em) in
        let rawMap := setAt rawMap "color" index
                        (colorVectorToValue (getRGBVector3i point)) in
        withRawMap em rawMap
      else
        let mahalanobisDistance :=
          ssqrt (square (z point - elevation) / variance)%S in
        if (mahalanobisDistance <? mahalanobisDistanceThreshold_ em)%S then
          let rawMap := setAt rawMap "elevation" index
            ((variance * z point + pointVariance * elevation)
             / (variance + pointVariance))%S in
          let rawMap := setAt rawMap "variance" index
            ((pointVariance * variance)
             / (pointVariance + variance))%S in
          let rawMap := setAt rawMap "color" index
                          (colorVectorToValue (getRGBVector3i point)) in
          withRawMap em rawMap
        else
          let rawMap := setAt rawMap "variance" index
                          (variance + multiHeightNoise_ em)%S in
          let rawMap := setAt rawMap "horizontal_variance_x" index
                          (minHorizontalVariance_ em) in
          let rawMap := setAt rawMap "horizontal_variance_y" index
                          (minHorizontalVariance_ em) in
          withRawMap em rawMap
  end.

(** [ElevationMap::add].  [pointCloudVariances(i)] is read for every
    point; the caller supplies one variance per point. *)
Definition add (em : ElevationMap) (pointCloud : PointCloud)
    (pointCloudVariances : list scalar) : bool * ElevationMap :=
  let em :=
    fold_left
      (fun em i =>
         addPoint em (nth i (points pointCloud) (mkPoint NaN NaN NaN (0, 0, 0)%Z))
                  (nth i pointCloudVariances NaN))
      (seq 0 (List.length (points pointCloud))) em in
  let em := snd (clean em) in
  (true,
   withRawMap em
     (setTimestamp (rawMap_ em) (uint64 (1000 * stamp pointCloud)))).

(** [ElevationMap::update]. *)
Definition update (em : ElevationMap)
    (varianceUpdate horizontalVarianceUpdateX horizontalVarianceUpdateY
       : Matrix)
    (time : Time) : bool * ElevationMap :=
  let bufferSize := getBufferSize (rawMap_ em) in
  if negb (sameSize varianceUpdate bufferSize
           && sameSize horizontalVarianceUpdateX bufferSize
           && sameSize horizontalVarianceUpdateY bufferSize)
  then (false, em)
  else
    let rawMap := rawMap_ em in
    let rawMap := setLayer rawMap "variance"
      (addAssign (get rawMap "variance") varianceUpdate) in
    let rawMap := setLayer rawMap "horizontal_variance_x"
      (addAssign (get rawMap "horizontal_variance_x")
                 horizontalVarianceUpdateX) in
    let rawMap := setLayer rawMap "horizontal_variance_y"
      (addAssign (get rawMap "horizontal_variance_y")
                 horizontalVarianceUpdateY) in
    let em := snd (clean (withRawMap em rawMap)) in
    (true, withRawMap em (setTimestamp (rawMap_ em) (toNSec time))).

(** [ElevationMap::cumulativeDistributionFunction]:
    [0.5 * erfc(-(x-mean)/(standardDeviation*sqrt(2.0)))]. *)
Definition cumulativeDistributionFunction
    (x mean standardDeviation : scalar) : scalar :=
  (Fin (1 / 2)
   * erfc (sopp (x - mean) / (standardDeviation * ssqrt (Fin 2))))%S.

(** One neighbour gathered by the inner loop of [fuse]: what is stored
    in [means[i]], [variances[i]] and [weights[i]]. *)
Record Candidate : Type := mkCandidate {
  mean_ : scalar;
  variance_ : scalar;
  weight_ : scalar
}.

(** The weight of the cell [index] seen from the submap centre
    [submapPosition]: [probabilityX * probabilityY]. *)
Definition weight (rawMapCopy : GridMap) (submapPosition : Vector2d)
    (index : Array2i) : scalar :=
  let position := getPosition rawMapCopy index in
  let distanceToCenter :=
    (sabs (fst position - fst submapPosition)%S,
     sabs (snd position - snd submapPosition)%S) in
  let half := (resolution_ rawMapCopy / Fin 2)%S in
  let sigmaX := ssqrt (at_ rawMapCopy "horizontal_variance_x" index) in
  let sigmaY := ssqrt (at_ rawMapCopy "horizontal_variance_y" index) in
  let probabilityX :=
    (cumulativeDistributionFunction (fst distanceToCenter + half)
                                    (Fin 0) sigmaX
     - cumulativeDistributionFunction (fst distanceToCenter - half)
                                      (Fin 0) sigmaX)%S in
  let probabilityY :=
    (cumulativeDistributionFunction (snd distanceToCenter + half)
                                    (Fin 0) sigmaY
     - cumulativeDistributionFunction (snd distanceToCenter - half)
                                      (Fin 0) sigmaY)%S in
  (probabilityX * probabilityY)%S.

(** The inner loop of [fuse]: the valid cells of the submap, in
    iteration order, each with its elevation, variance and weight. *)
Definition gather (rawMapCopy : GridMap) (submapPosition : Vector2d)
    (cells : list Array2i) : list Candidate :=
  map (fun index =>
         mkCandidate (at_ rawMapCopy "elevation" index)
                     (at_ rawMapCopy "variance" index)
                     (weight rawMapCopy submapPosition index))
      (filter (isValid rawMapCopy) cells).

(** [(weights * means).sum() / weights.sum()]. *)
Definition fusedMean (cs : list Candidate) : scalar :=
  (sum (map (fun c => weight_ c * mean_ c) cs)
   / sum (map weight_ cs))%S.

(** [(weights * (variances.square() + means.square())).sum()
     / weights.sum() - pow(mean, 2)]. *)
Definition fusedVariance (cs : list Candidate) : scalar :=
  (sum (map (fun c => weight_ c * (square (variance_ c) + square (mean_ c)))
            cs)
   / sum (map weight_ cs)
   - square (fusedMean cs))%S.

(** The submap [fuse] gathers neighbours from, for the cell [index]. *)
Definition neighbourhood (rawMapCopy : GridMap) (index : Array2i)
    : SubmapInformation :=
  let submapLength :=
    (Fin 4 * ssqrt (at_ rawMapCopy "horizontal_variance_x" index),
     Fin 4 * ssqrt (at_ rawMapCopy "horizontal_variance_y" index))%S in
  let submapPosition := getPosition rawMapCopy index in
  getSubmapInformation submapPosition submapLength
    (length_ rawMapCopy) (position_ rawMapCopy) (resolution_ rawMapCopy)
    (bufferSize_ rawMapCopy) (bufferStartIndex_ rawMapCopy).

(** The candidates of the cell [index].  [getSubmapInformation] writes
    the submap position back into the variable it was requested with, so
    the distances are taken to the position it returned. *)
Definition candidates (rawMapCopy : GridMap) (index : Array2i)
    : list Candidate :=
  let info := neighbourhood rawMapCopy index in
  gather rawMapCopy (submapPosition info)
    (SubmapIterator rawMapCopy (topLeftIndex info) (submapBufferSize info)).

(** The body of the outer loop of [ElevationMap::fuse]. *)
Definition fuseCell (rawMapCopy fusedMap : GridMap) (index : Array2i)
    : GridMap :=
  if isValid fusedMap index then fusedMap
  else if negb (isValid rawMapCopy index) then fusedMap
  else
    let cs := candidates rawMapCopy index in
    if (List.length cs =? 0)%nat then
      let fusedMap := setAt fusedMap "elevation" index
                        (at_ rawMapCopy "elevation" index) in
      let fusedMap := setAt fusedMap "variance" index
                        (at_ rawMapCopy "variance" index) in
      setAt fusedMap "color" index (at_ rawMapCopy "color" index)
    else
      let mean := fusedMean cs in
      let variance := fusedVariance cs in
      if negb (isfinite variance && isfinite mean) then fusedMap
      else
        let fusedMap := setAt fusedMap "elevation" index mean in
        let fusedMap := setAt fusedMap "variance" index variance in
        setAt fusedMap "color" index (at_ rawMapCopy "color" index).

(** [ElevationMap::fuse]. *)
Definition fuse (em : ElevationMap) (topLeftIndex size : Array2i)
    : bool * ElevationMap :=
  if Bool.eqb (any size) false then (false, em)
  else
    let rawMapCopy := rawMap_ em in
    let em :=
      if negb (getTimestamp (fusedMap_ em) =? getTimestamp rawMapCopy)%N
      then resetFusedData em else em in
    let fusedMap :=
      fold_left (fuseCell rawMapCopy)
                (SubmapIterator rawMapCopy topLeftIndex size)
                (fusedMap_ em) in
    (true, withFusedMap em
             (setTimestamp fusedMap (getTimestamp rawMapCopy))).

(** [ElevationMap::fuseAll]. *)
Definition fuseAll (em : ElevationMap) : bool * ElevationMap :=
  fuse em (0, 0)%Z (getBufferSize (fusedMap_ em)).

(** [ElevationMap::fuseArea]. *)
Definition fuseArea (em : ElevationMap) (position length : Vector2d)
    : bool * ElevationMap :=
  let rawMap := rawMap_ em in
  let info :=
    getSubmapInformation position length
      (length_ rawMap) (position_ rawMap) (resolution_ rawMap)
      (bufferSize_ rawMap) (bufferStartIndex_ rawMap) in
  fuse em (topLeftIndex info) (submapBufferSize info).

End WithGridMapLib.

(** ** What the specification says of the fused variance *)

(** The weighted second moment as the specification words it:
    [sum (w * (v + e^2)) / sum w - mu^2], with the variance itself where
    [fusedVariance] has its square. *)
Definition specFusedVariance (cs : list Candidate) : scalar :=
  (sum (map (fun c => weight_ c * (variance_ c + square (mean_ c))) cs)
   / sum (map weight_ cs)
   - square (fusedMean cs))%S.


(** ** A grid of one cell, for the examples

    A library instance for a map of a single cell of side 1 centred at the
    origin: the cell holds the positions of [[-1/2, 1/2)] on both axes,
    every submap is clipped to that cell, and an iterator enumerates its
    rectangle row by row. *)

Definition inUnitCell (a : scalar) : bool :=
  (Fin (- (1 / 2)) <=? a)%S && (a <? Fin (1 / 2))%S.

Definition rectangle (topLeft size : Array2i) : list Array2i :=
  flat_map
    (fun r => map (fun c => (fst topLeft + Z.of_nat r,
                             snd topLeft + Z.of_nat c)%Z)
                  (seq 0 (Z.to_nat (snd size))))
    (seq 0 (Z.to_nat (fst size))).

(** A stand-in for [erfc] with its values at the infinities and at zero,
    decreasing in between; the examples evaluate it at those three points
    only. *)
Definition erfcShape (a : scalar) : scalar :=
  match a with
  | Fin t => Fin (1 - t / sqrt (1 + t * t))
  | PInf => Fin 0
  | NInf => Fin 2
  | NaN => NaN
  end.

#[local] Instance oneCell : GridMapLib := {|
  getIndex := fun _ p =>
    if inUnitCell (fst p) && inUnitCell (snd p) then Some (0, 0)%Z else None;
  getPosition := fun _ _ => (Fin 0, Fin 0);
  getSubmapInformation := fun _ requestedLength _ _ _ _ _ =>
    mkSubmapInformation (0, 0)%Z (1, 1)%Z (Fin 0, Fin 0)
                        requestedLength (0, 0)%Z;
  SubmapIterator := fun _ topLeft size => rectangle topLeft size;
  colorVectorToValue := fun c =>
    match c with
    | (r, g, b) => Fin (IZR (r * 65536 + g * 256 + b))
    end;
  erfc := erfcShape
|}.

(** The one-cell map holding the given cell. *)
Definition cellMap (elevation variance horizontalVarianceX
                    horizontalVarianceY color : scalar) (t : N) : GridMap :=
  mkGridMap
    (fun layer =>
       mkMatrix 1 1
         (fun _ =>
            if layer =? "elevation" then elevation
            else if layer =? "variance" then variance
            else if layer =? "horizontal_variance_x" then horizontalVarianceX
            else if layer =? "horizontal_variance_y" then horizontalVarianceY
            else color))
    t (Fin 1, Fin 1) (Fin 0, Fin 0) (Fin 1) (1, 1)%Z (0, 0)%Z.

(** The one-cell map after [clearAll]. *)
Definition emptyMap (t : N) : GridMap := cellMap NaN NaN NaN NaN NaN t.

(** The example state: the one-cell map holding elevation 1.0 with
    variance 0.01, a Mahalanobis threshold of 3.0, variance bounds
    [0.0001, 0.05] and horizontal variance bounds [0.0001, 0.5]. *)
Definition exampleMap : ElevationMap :=
  mkElevationMap
    (cellMap (Fin 1) (Fin (1 / 100)) (Fin (1 / 10)) (Fin (1 / 10)) (Fin 7) 5)
    (emptyMap 0)
    (Fin (1 / 10000)) (Fin (5 / 100))
    (Fin 3) (Fin (1 / 1000))
    (Fin (1 / 10000)) (Fin (5 / 10)).

(** A point above the origin at the given height. *)
Definition pointAbove (height : scalar) : PointXYZRGB :=
  mkPoint (Fin 0) (Fin 0) height (255, 0, 0)%Z.

(** The example state with its cell at elevation 1.0, variance 2.0 and
    no horizontal variance, and a fused map that is out of date. *)
Definition sharpExampleMap : ElevationMap :=
  mkElevationMap
    (cellMap (Fin 1) (Fin 2) (Fin 0) (Fin 0) (Fin 7) 5)
    (emptyMap 0)
    (Fin 0) (Fin 3) (Fin 3) (Fin 0) (Fin 0) (Fin 1).

(** The example state with its cell at elevation 1.0, variance 0.01 and
    both horizontal variances diverged to +infinity, as [clean] leaves
    them above [maxHorizontalVariance_]. *)
Definition divergedExampleMap : ElevationMap :=
  mkElevationMap
    (cellMap (Fin 1) (Fin (1 / 100)) PInf PInf (Fin 7) 5)
    (emptyMap 0)
    (Fin 0) (Fin 3) (Fin 3) (Fin 0) (Fin 0) (Fin 1).

(** ** The rest of the life cycle *)

(** [ElevationMap::reset]. *)
Definition reset (em : ElevationMap) : bool * ElevationMap :=
  (true,
   withFusedMap (withRawMap em (clearAll (rawMap_ em)))
                (clearAll (fusedMap_ em))).

(** The example state before any measurement: both one-cell maps empty. *)
Definition emptyExampleMap : ElevationMap :=
  mkElevationMap
    (emptyMap 0) (emptyMap 0)
    (Fin (1 / 10000)) (Fin (5 / 100))
    (Fin 3) (Fin (1 / 1000))
    (Fin (1 / 10000)) (Fin (5 / 10)).

(** A point that lies outside the one-cell map. *)
Definition farPoint : PointXYZRGB :=
  mkPoint (Fin 5) (Fin 5) (Fin 1) (0, 255, 0)%Z.

(** The example state after a fusion pass: the fused cell holds
    elevation 1.0 and variance 4.0 for the raw timestamp 5. *)
Definition fusedExampleMap : ElevationMap :=
  mkElevationMap
    (cellMap (Fin 1) (Fin 2) (Fin 0) (Fin 0) (Fin 7) 5)
    (cellMap (Fin 1) (Fin 4) NaN NaN (Fin 7) 5)
    (Fin 0) (Fin 3) (Fin 3) (Fin 0) (Fin 0) (Fin 1).

(** ** Theorems *)

(** *** Scalar arithmetic *)

Ltac case_R :=
  repeat match goal with
  | |- context [Rlt_dec ?a ?b] => destruct (Rlt_dec a b)
  | |- context [Rle_dec ?a ?b] => destruct (Rle_dec a b)
  | |- context [Req_dec_T ?a ?b] => destruct (Req_dec_T a b)
  | H : context [Rlt_dec ?a ?b] |- _ => destruct (Rlt_dec a b)
  | H : context [Rle_dec ?a ?b] |- _ => destruct (Rle_dec a b)
  | H : context [Req_dec_T ?a ?b] |- _ => destruct (Req_dec_T a b)
  end.

(** Decides the comparisons of a goal; what is left is closed by linear
    arithmetic or is a contradiction among the comparisons. *)
Ltac by_cases_R :=
  case_R; try reflexivity; try discriminate; try (exfalso; lra).



Lemma slt_irrefl (a : scalar) : (a <? a)%S = false.
Proof. destruct a; simpl; trivial. by_cases_R. Qed.

Lemma slt_PInf_l (a : scalar) : (PInf <? a)%S = false.
Proof. destruct a; reflexivity. Qed.



Lemma sle_not_gt (a b : scalar) : (a <=? b)%S = true -> (b <? a)%S = false.
Proof. destruct a, b; simpl; trivial; try discriminate; by_cases_R. Qed.

Lemma Rsign_pos (r : R) : (0 < r)%R -> Rsign r = Pos.
Proof. intros H. unfold Rsign. by_cases_R. Qed.

Lemma Rsign_neg (r : R) : (r < 0)%R -> Rsign r = Neg.
Proof. intros H. unfold Rsign. by_cases_R. Qed.

Lemma Rsign_zero : Rsign 0 = Zero.
Proof. unfold Rsign. by_cases_R. Qed.

Lemma ssqrt_zero : ssqrt (Fin 0) = Fin 0.
Proof. simpl. case_R; [exfalso; lra | now rewrite sqrt_0]. Qed.




(** *** The variance clamp *)

(** C6. The clamp is [min] below [min], otherwise +infinity above [max],
    otherwise the value itself (so, with [min <= max], +infinity above
    [max] in every case), and [clean] applies it cell by cell to the
    variance layer with the variance bounds and to both horizontal variance
    layers with the horizontal bounds, leaving the other layers, the
    timestamp and the fused map as they were. *)
Theorem variance_clamp_elementwise
    (em : ElevationMap) (index : Array2i) (min max v : scalar) :
  let op := VarianceClampOperator.mk min max in
  let raw := rawMap_ em in
  let raw' := rawMap_ (snd (clean em)) in
  ((v <? min)%S = true -> VarianceClampOperator.operator op v = min)
  /\ ((v <? min)%S = false -> (v >? max)%S = true ->
      VarianceClampOperator.operator op v = PInf)
  /\ ((min <=? max)%S = true -> (v >? max)%S = true ->
      VarianceClampOperator.operator op v = PInf)
  /\ ((v <? min)%S = false -> (v >? max)%S = false ->
      VarianceClampOperator.operator op v = v)
  /\ at_ raw' "variance" index
     = VarianceClampOperator.operator
         (VarianceClampOperator.mk (minVariance_ em) (maxVariance_ em))
         (at_ raw "variance" index)
  /\ at_ raw' "horizontal_variance_x" index
     = VarianceClampOperator.operator
         (VarianceClampOperator.mk (minHorizontalVariance_ em)
                                   (maxHorizontalVariance_ em))
         (at_ raw "horizontal_variance_x" index)
  /\ at_ raw' "horizontal_variance_y" index
     = VarianceClampOperator.operator
         (VarianceClampOperator.mk (minHorizontalVariance_ em)
                                   (maxHorizontalVariance_ em))
         (at_ raw "horizontal_variance_y" index)
  /\ at_ raw' "elevation" index = at_ raw "elevation" index
  /\ at_ raw' "color" index = at_ raw "color" index
  /\ getTimestamp raw' = getTimestamp raw
  /\ fusedMap_ (snd (clean em)) = fusedMap_ em.
Proof.
  unfold VarianceClampOperator.operator; simpl.
  repeat split; trivial.
  - now intros ->.
  - now intros -> ->.
  - intros Hle Hgt. rewrite Hgt.
    destruct (v <? min)%S eqn:Hlt; trivial.
    (* [v < min <= max < v] cannot be *)
    exfalso. unfold sgt in Hgt.
    destruct v, min, max; simpl in *; try discriminate;
      case_R; try discriminate; lra.
  - now intros -> ->.
Qed.

Lemma variance_clamp_elementwise_witness :
  let op := VarianceClampOperator.mk (Fin (1 / 10000)) (Fin (5 / 100)) in
  VarianceClampOperator.operator op (Fin (1 / 100000)) = Fin (1 / 10000)
  /\ VarianceClampOperator.operator op (Fin (2 / 10)) = PInf
  /\ VarianceClampOperator.operator op (Fin (1 / 100)) = Fin (1 / 100).
Proof.
  pose (em := mkElevationMap (emptyMap 0) (emptyMap 0)
                (Fin 0) (Fin 0) (Fin 0) (Fin 0) (Fin 0) (Fin 0)).
  destruct (variance_clamp_elementwise em (0, 0)%Z
              (Fin (1 / 10000)) (Fin (5 / 100)) (Fin (1 / 100000)))
    as (Hmin & _).
  destruct (variance_clamp_elementwise em (0, 0)%Z
              (Fin (1 / 10000)) (Fin (5 / 100)) (Fin (2 / 10)))
    as (_ & Hmax & _).
  destruct (variance_clamp_elementwise em (0, 0)%Z
              (Fin (1 / 10000)) (Fin (5 / 100)) (Fin (1 / 100)))
    as (_ & _ & _ & Hmid & _).
  split; [|split].
  - apply Hmin. simpl. by_cases_R.
  - apply Hmax; unfold sgt; simpl; by_cases_R.
  - apply Hmid; unfold sgt; simpl; by_cases_R.
Defined.

(** +infinity is a fixed point of every clamp. *)
Lemma clamp_PInf (op : VarianceClampOperator.t) :
  VarianceClampOperator.operator op PInf = PInf.
Proof.
  unfold VarianceClampOperator.operator, sgt.
  rewrite slt_PInf_l. now destruct (_ <? PInf)%S.
Qed.

(** C9. With [min <= max] the clamp is idempotent, and +infinity is a fixed
    point of it: it stays +infinity under any number of further clamps. *)
Theorem clamp_idempotent (op : VarianceClampOperator.t) (v : scalar) :
  (VarianceClampOperator.minVariance_ op
   <=? VarianceClampOperator.maxVariance_ op)%S = true ->
  VarianceClampOperator.operator op (VarianceClampOperator.operator op v)
  = VarianceClampOperator.operator op v
  /\ VarianceClampOperator.operator op PInf = PInf
  /\ forall n, Nat.iter n (VarianceClampOperator.operator op) PInf = PInf.
Proof.
  intros Hle. pose proof (sle_not_gt _ _ Hle) as Hgt.
  split; [|split].
  - unfold VarianceClampOperator.operator at 2 3.
    destruct (v <? _)%S eqn:E1.
    + unfold VarianceClampOperator.operator, sgt.
      now rewrite slt_irrefl, Hgt.
    + destruct (v >? _)%S eqn:E2.
      * apply clamp_PInf.
      * unfold VarianceClampOperator.operator. now rewrite E1, E2.
  - apply clamp_PInf.
  - induction n as [|n IH]; simpl; trivial.
    rewrite IH. apply clamp_PInf.
Qed.

Lemma clamp_idempotent_witness :
  let op := VarianceClampOperator.mk (Fin (1 / 10000)) (Fin (5 / 100)) in
  VarianceClampOperator.operator op
    (VarianceClampOperator.operator op (Fin (2 / 10)))
  = VarianceClampOperator.operator op (Fin (2 / 10))
  /\ VarianceClampOperator.operator op PInf = PInf.
Proof.
  destruct (@clamp_idempotent
              (VarianceClampOperator.mk (Fin (1 / 10000)) (Fin (5 / 100)))
              (Fin (2 / 10))) as (Hidem & Hinf & _).
  - simpl. by_cases_R.
  - split; assumption.
Defined.

(** *** Reading a grid map after a write *)

Lemma Array2i_eqb_eq (i j : Array2i) : Array2i_eqb i j = true <-> i = j.
Proof.
  destruct i as [a b], j as [c d]. unfold Array2i_eqb. simpl.
  rewrite andb_true_iff, !Z.eqb_eq. split.
  - now intros [-> ->].
  - intros E. now inversion E.
Qed.

Lemma Array2i_eqb_refl (i : Array2i) : Array2i_eqb i i = true.
Proof. now apply Array2i_eqb_eq. Qed.

Lemma Array2i_eqb_neq (i j : Array2i) : i <> j -> Array2i_eqb i j = false.
Proof.
  intros H. destruct (Array2i_eqb i j) eqn:E; trivial.
  now apply Array2i_eqb_eq in E.
Qed.

Lemma at_setAt (m : GridMap) (layer : string) (index : Array2i) (v : scalar)
    (layer' : string) (index' : Array2i) :
  at_ (setAt m layer index v) layer' index'
  = if (layer' =? layer) && Array2i_eqb index' index then v
    else at_ m layer' index'.
Proof.
  unfold at_, setAt, setLayer, get. simpl.
  destruct (layer' =? layer) eqn:E; simpl; trivial.
  apply String.eqb_eq in E. now subst.
Qed.

Lemma at_setTimestamp (m : GridMap) (t : N) (layer : string)
    (index : Array2i) :
  at_ (setTimestamp m t) layer index = at_ m layer index.
Proof. reflexivity. Qed.

Lemma getTimestamp_setAt (m : GridMap) (layer : string) (index : Array2i)
    (v : scalar) :
  getTimestamp (setAt m layer index v) = getTimestamp m.
Proof. reflexivity. Qed.

Lemma isValid_clearAll (m : GridMap) (index : Array2i) :
  isValid (clearAll m) index = false.
Proof. reflexivity. Qed.

(** Reads back the cells of a map written by a chain of [setAt]. *)
Ltac read_back :=
  rewrite ?at_setAt; simpl (String.eqb _ _);
  rewrite ?Array2i_eqb_refl; simpl (andb _ _); cbv iota.

(** *** The point integrator *)

Section PointIntegrator.

Context {lib : GridMapLib}.

Variable em : ElevationMap.
Variable point : PointXYZRGB.
Variable pointVariance : scalar.
Variable index : Array2i.

Hypothesis point_in_map :
  getIndex (rawMap_ em) (x point, y point) = Some index.
Hypothesis cell_valid : isValid (rawMap_ em) index = true.

Let cellElevation := at_ (rawMap_ em) "elevation" index.
Let cellVariance := at_ (rawMap_ em) "variance" index.

(** The branch taken when the test of the code succeeds. *)
Lemma addPoint_fuse :
  (ssqrt (square (z point - cellElevation) / cellVariance)
   <? mahalanobisDistanceThreshold_ em)%S = true ->
  addPoint em point pointVariance
  = withRawMap em
      (setAt
         (setAt
            (setAt (rawMap_ em) "elevation" index
               ((cellVariance * z point + pointVariance * cellElevation)
                / (cellVariance + pointVariance))%S)
            "variance" index
            ((pointVariance * cellVariance)
             / (pointVariance + cellVariance))%S)
         "color" index (colorVectorToValue (getRGBVector3i point))).
Proof.
  intros H. unfold addPoint.
  rewrite point_in_map, cell_valid. simpl negb. cbv iota.
  fold cellElevation cellVariance. now rewrite H.
Qed.





End PointIntegrator.

(** A cloud of one point: the loop body, then [clean], then the stamp. *)
Lemma add_single_point {lib : GridMapLib} (em : ElevationMap) (t : N)
    (point : PointXYZRGB) (pointVariance : scalar) :
  add em (mkPointCloud t [point]) [pointVariance]
  = (true,
     let em' := snd (clean (addPoint em point pointVariance)) in
     withRawMap em' (setTimestamp (rawMap_ em') (uint64 (1000 * t)))).
Proof. reflexivity. Qed.

(** Evaluating the point integrator on the example state. *)


Lemma origin_in_exampleMap :
  getIndex (rawMap_ exampleMap) (x (pointAbove (Fin 5)), y (pointAbove (Fin 5)))
  = Some (0, 0)%Z.
Proof. simpl. unfold inUnitCell. simpl. by_cases_R. Qed.






(** *** The exogenous update *)

(** C4. An update whose matrices do not all have the dimensions of the raw
    map fails and returns the state it was given; otherwise it succeeds,
    every cell of the three variance layers is the clamp of the old value
    plus its delta, the timestamp is the given time, and the elevation and
    colour layers and the fused map are as before. *)
Theorem update_adds_deltas_or_fails
    (em : ElevationMap) (varianceUpdate hvxUpdate hvyUpdate : Matrix)
    (time : Time) :
  let r := update em varianceUpdate hvxUpdate hvyUpdate time in
  let fits (m : Matrix) := (rows m, cols m) = getBufferSize (rawMap_ em) in
  let clampV :=
    VarianceClampOperator.operator
      (VarianceClampOperator.mk (minVariance_ em) (maxVariance_ em)) in
  let clampH :=
    VarianceClampOperator.operator
      (VarianceClampOperator.mk (minHorizontalVariance_ em)
                                (maxHorizontalVariance_ em)) in
  (~ (fits varianceUpdate /\ fits hvxUpdate /\ fits hvyUpdate) ->
   r = (false, em))
  /\ (fits varianceUpdate /\ fits hvxUpdate /\ fits hvyUpdate ->
      fst r = true
      /\ (forall index,
            at_ (rawMap_ (snd r)) "variance" index
            = clampV (at_ (rawMap_ em) "variance" index
                      + coeff varianceUpdate index)%S
            /\ at_ (rawMap_ (snd r)) "horizontal_variance_x" index
               = clampH (at_ (rawMap_ em) "horizontal_variance_x" index
                         + coeff hvxUpdate index)%S
            /\ at_ (rawMap_ (snd r)) "horizontal_variance_y" index
               = clampH (at_ (rawMap_ em) "horizontal_variance_y" index
                         + coeff hvyUpdate index)%S
            /\ at_ (rawMap_ (snd r)) "elevation" index
               = at_ (rawMap_ em) "elevation" index
            /\ at_ (rawMap_ (snd r)) "color" index
               = at_ (rawMap_ em) "color" index)
      /\ getTimestamp (rawMap_ (snd r)) = toNSec time
      /\ fusedMap_ (snd r) = fusedMap_ em).
Proof.
  intros r fits clampV clampH. subst r. unfold update, sameSize.
  split.
  - intros Hno.
    destruct (Array2i_eqb (rows varianceUpdate, cols varianceUpdate) _) eqn:E1;
      trivial.
    destruct (Array2i_eqb (rows hvxUpdate, cols hvxUpdate) _) eqn:E2; trivial.
    destruct (Array2i_eqb (rows hvyUpdate, cols hvyUpdate) _) eqn:E3; trivial.
    exfalso. apply Hno. unfold fits. now rewrite <- !Array2i_eqb_eq.
  - intros (F1 & F2 & F3). unfold fits in F1, F2, F3.
    apply Array2i_eqb_eq in F1, F2, F3. rewrite F1, F2, F3.
    simpl. repeat split.
Qed.

Lemma update_adds_deltas_or_fails_witness :
  let delta := mkMatrix 1 1 (fun _ => Fin (1 / 1000)) in
  let wrong := mkMatrix 2 1 (fun _ => Fin (1 / 1000)) in
  update exampleMap delta wrong delta (mkTime 1 2) = (false, exampleMap)
  /\ fst (update exampleMap delta delta delta (mkTime 1 2)) = true
  /\ getTimestamp
       (rawMap_ (snd (update exampleMap delta delta delta (mkTime 1 2))))
     = 1000000002%N.
Proof.
  pose (delta := mkMatrix 1 1 (fun _ => Fin (1 / 1000))).
  pose (wrong := mkMatrix 2 1 (fun _ => Fin (1 / 1000))).
  destruct (update_adds_deltas_or_fails exampleMap delta wrong delta
              (mkTime 1 2)) as (Hfail & _).
  destruct (update_adds_deltas_or_fails exampleMap delta delta delta
              (mkTime 1 2)) as (_ & Hok).
  split; [|split].
  - apply Hfail. intros (_ & H & _). discriminate H.
  - apply Hok. repeat split.
  - destruct Hok as (_ & _ & Ht & _); [repeat split|]. exact Ht.
Defined.

(** *** The fusion engine: one candidate *)

Lemma fusedMean_single (w e v : R) :
  w <> 0%R ->
  fusedMean [mkCandidate (Fin e) (Fin v) (Fin w)] = Fin e.
Proof.
  intros Hw. unfold fusedMean. simpl.
  destruct (Req_dec_T (w + 0) 0); [exfalso; lra|].
  f_equal. field. lra.
Qed.

(** With a single candidate the code's variance is the square of that
    candidate's variance. *)
Lemma fusedVariance_single (w e v : R) :
  w <> 0%R ->
  fusedVariance [mkCandidate (Fin e) (Fin v) (Fin w)] = Fin (v * v).
Proof.
  intros Hw. unfold fusedVariance. rewrite fusedMean_single by trivial.
  simpl. destruct (Req_dec_T (w + 0) 0); [exfalso; lra|].
  simpl. f_equal. field. lra.
Qed.

(** With a single candidate the specification's variance is that
    candidate's variance. *)
Lemma specFusedVariance_single (w e v : R) :
  w <> 0%R ->
  specFusedVariance [mkCandidate (Fin e) (Fin v) (Fin w)] = Fin v.
Proof.
  intros Hw. unfold specFusedVariance. rewrite fusedMean_single by trivial.
  simpl. destruct (Req_dec_T (w + 0) 0); [exfalso; lra|].
  simpl. f_equal. field. lra.
Qed.


(** *** The fusion engine: one cell *)

Section FusionEngine.

Context {lib : GridMapLib}.

Variable rawMapCopy : GridMap.

Lemma fuseCell_already_fused (fusedMap : GridMap) (index : Array2i) :
  isValid fusedMap index = true ->
  fuseCell rawMapCopy fusedMap index = fusedMap.
Proof. intros H. unfold fuseCell. now rewrite H. Qed.

Lemma fuseCell_hole (fusedMap : GridMap) (index : Array2i) :
  isValid rawMapCopy index = false ->
  fuseCell rawMapCopy fusedMap index = fusedMap.
Proof.
  intros H. unfold fuseCell. rewrite H. now destruct (isValid fusedMap index).
Qed.

(** A cell with candidates and a finite result: the code writes
    [fusedMean], [fusedVariance] and the raw colour. *)
Lemma fuseCell_fused (fusedMap : GridMap) (index : Array2i) (m s : R) :
  isValid fusedMap index = false ->
  isValid rawMapCopy index = true ->
  candidates rawMapCopy index <> [] ->
  fusedMean (candidates rawMapCopy index) = Fin m ->
  fusedVariance (candidates rawMapCopy index) = Fin s ->
  fuseCell rawMapCopy fusedMap index
  = setAt
      (setAt (setAt fusedMap "elevation" index (Fin m))
             "variance" index (Fin s))
      "color" index (at_ rawMapCopy "color" index).
Proof.
  intros Hf Hr Hcs Hm Hs. unfold fuseCell. rewrite Hf, Hr. simpl negb.
  cbv iota. destruct (candidates rawMapCopy index) eqn:E; [easy|].
  change (List.length (c :: l) =? 0)%nat with false. cbv iota.
  now rewrite Hm, Hs.
Qed.

(** A cell whose mean or variance is not finite is left as it was. *)
Lemma fuseCell_discarded (fusedMap : GridMap) (index : Array2i) :
  candidates rawMapCopy index <> [] ->
  isfinite (fusedVariance (candidates rawMapCopy index))
  && isfinite (fusedMean (candidates rawMapCopy index)) = false ->
  fuseCell rawMapCopy fusedMap index = fusedMap.
Proof.
  intros Hcs Hfin. unfold fuseCell.
  destruct (isValid fusedMap index); trivial.
  destruct (isValid rawMapCopy index); trivial. simpl negb. cbv iota.
  destruct (candidates rawMapCopy index) eqn:E; [easy|].
  change (List.length (c :: l) =? 0)%nat with false. cbv iota.
  now rewrite Hfin.
Qed.

(** The candidates of a cell that is the only valid cell of its own
    submap. *)
Lemma candidates_alone (index : Array2i) :
  let info := neighbourhood rawMapCopy index in
  filter (isValid rawMapCopy)
    (SubmapIterator rawMapCopy (topLeftIndex info) (submapBufferSize info))
  = [index] ->
  candidates rawMapCopy index
  = [mkCandidate (at_ rawMapCopy "elevation" index)
                 (at_ rawMapCopy "variance" index)
                 (weight rawMapCopy (submapPosition info) index)].
Proof. intros info H. unfold candidates, gather. fold info. now rewrite H. Qed.

(** One-sided values of the footprint mass for a cell without horizontal
    variance: all of the mass lies at the centre. *)
Lemma cumulativeDistributionFunction_above (a : R) :
  erfc NInf = Fin 2 -> (0 < a)%R ->
  cumulativeDistributionFunction (Fin a) (Fin 0) (Fin 0) = Fin 1.
Proof.
  intros He Ha. unfold cumulativeDistributionFunction. simpl.
  destruct (Rlt_dec 2 0); [exfalso; lra|]. simpl.
  destruct (Req_dec_T (0 * sqrt 2) 0); [|exfalso; lra].
  rewrite Rsign_neg by lra. simpl. rewrite He. simpl. f_equal. lra.
Qed.

Lemma cumulativeDistributionFunction_below (a : R) :
  erfc PInf = Fin 0 -> (a < 0)%R ->
  cumulativeDistributionFunction (Fin a) (Fin 0) (Fin 0) = Fin 0.
Proof.
  intros He Ha. unfold cumulativeDistributionFunction. simpl.
  destruct (Rlt_dec 2 0); [exfalso; lra|]. simpl.
  destruct (Req_dec_T (0 * sqrt 2) 0); [|exfalso; lra].
  rewrite Rsign_pos by lra. simpl. rewrite He. simpl. f_equal. lra.
Qed.

(** With an infinite horizontal variance the mass is spread flat. *)
Lemma cumulativeDistributionFunction_flat (a : R) :
  erfc (Fin 0) = Fin 1 ->
  cumulativeDistributionFunction (Fin a) (Fin 0) PInf = Fin (1 / 2).
Proof.
  intros He. unfold cumulativeDistributionFunction. simpl.
  destruct (Rlt_dec 2 0); [exfalso; lra|]. simpl.
  assert (0 < sqrt 2)%R by (apply sqrt_lt_R0; lra).
  rewrite Rsign_pos by trivial. simpl. rewrite He. simpl. f_equal. lra.
Qed.

End FusionEngine.

(** *** The fusion engine: a cell within a pass *)

Section FusionPass.

Context {lib : GridMapLib}.

Variable rawMapCopy : GridMap.

(** What the three writes of [fuseCell] leave in a cell. *)
Lemma at_fused_writes (fusedMap : GridMap) (index : Array2i) (e v c : scalar)
    (layer : string) :
  at_ (setAt (setAt (setAt fusedMap "elevation" index e) "variance" index v)
             "color" index c) layer index
  = if layer =? "color" then c
    else if layer =? "variance" then v
    else if layer =? "elevation" then e
    else at_ fusedMap layer index.
Proof.
  rewrite !at_setAt, Array2i_eqb_refl, !andb_true_r. reflexivity.
Qed.

Lemma isValid_fused_writes (fusedMap : GridMap) (index : Array2i)
    (e v c : scalar) :
  isValid (setAt (setAt (setAt fusedMap "elevation" index e)
                        "variance" index v) "color" index c) index
  = negb (isnan e) && negb (isnan v).
Proof. unfold isValid. now rewrite !at_fused_writes. Qed.

(** [fuseCell] writes to the cell it is given only. *)
Lemma fuseCell_other (fusedMap : GridMap) (index index' : Array2i)
    (layer : string) :
  index' <> index ->
  at_ (fuseCell rawMapCopy fusedMap index) layer index'
  = at_ fusedMap layer index'.
Proof.
  intros Hne. apply Array2i_eqb_neq in Hne. unfold fuseCell.
  repeat match goal with
         | |- context [if ?b then _ else _] => destruct b
         end; trivial;
    now rewrite !at_setAt, Hne, !andb_false_r.
Qed.

(** What [fuseCell] leaves in its cell depends on that cell only. *)
Lemma fuseCell_local (fusedMap1 fusedMap2 : GridMap) (index : Array2i) :
  (forall layer, at_ fusedMap1 layer index = at_ fusedMap2 layer index) ->
  forall layer,
    at_ (fuseCell rawMapCopy fusedMap1 index) layer index
    = at_ (fuseCell rawMapCopy fusedMap2 index) layer index.
Proof.
  intros Hsame layer. unfold fuseCell.
  assert (Hvalid : isValid fusedMap1 index = isValid fusedMap2 index).
  { unfold isValid. now rewrite !Hsame. }
  rewrite Hvalid.
  repeat match goal with
         | |- context [if ?b then _ else _] => destruct b
         end; trivial;
    now rewrite !at_fused_writes, Hsame.
Qed.

(** After [fuseCell] its cell is valid, or the map is as it was. *)
Lemma fuseCell_valid_or_same (fusedMap : GridMap) (index : Array2i) :
  isValid (fuseCell rawMapCopy fusedMap index) index = true
  \/ fuseCell rawMapCopy fusedMap index = fusedMap.
Proof.
  unfold fuseCell.
  destruct (isValid fusedMap index) eqn:Hf; [now left|].
  destruct (isValid rawMapCopy index) eqn:Hr; [|now right]. simpl negb.
  cbv iota.
  destruct (List.length (candidates rawMapCopy index) =? 0)%nat.
  - left. now rewrite isValid_fused_writes.
  - destruct (isfinite (fusedVariance _) && isfinite (fusedMean _)) eqn:Hfin;
      [|now right].
    left. simpl negb. cbv iota. rewrite isValid_fused_writes.
    apply andb_true_iff in Hfin. destruct Hfin as [Hv Hm].
    destruct (fusedMean _), (fusedVariance _); try discriminate.
    reflexivity.
Qed.

(** Fusing a cell a second time changes nothing. *)
Lemma fuseCell_idempotent (fusedMap : GridMap) (index : Array2i) :
  fuseCell rawMapCopy (fuseCell rawMapCopy fusedMap index) index
  = fuseCell rawMapCopy fusedMap index.
Proof.
  destruct (fuseCell_valid_or_same fusedMap index) as [H|H].
  - now apply fuseCell_already_fused.
  - now rewrite !H.
Qed.

(** The cell [index] after the loop over [cells]: fused once if the loop
    visits it, untouched otherwise. *)
Lemma fold_fuseCell_at (cells : list Array2i) (fusedMap : GridMap)
    (index : Array2i) (layer : string) :
  at_ (fold_left (fuseCell rawMapCopy) cells fusedMap) layer index
  = if existsb (Array2i_eqb index) cells
    then at_ (fuseCell rawMapCopy fusedMap index) layer index
    else at_ fusedMap layer index.
Proof.
  revert fusedMap layer.
  induction cells as [|c cells IH]; intros fusedMap layer; simpl; trivial.
  rewrite IH. destruct (Array2i_eqb index c) eqn:E; simpl.
  - apply Array2i_eqb_eq in E. subst c.
    rewrite fuseCell_idempotent. now destruct (existsb _ cells).
  - assert (Hne : index <> c).
    { intros ->. now rewrite Array2i_eqb_refl in E. }
    destruct (existsb _ cells).
    + apply fuseCell_local. intros l. now apply fuseCell_other.
    + now apply fuseCell_other.
Qed.

Lemma existsb_visited (cells : list Array2i) (index : Array2i) :
  In index cells -> existsb (Array2i_eqb index) cells = true.
Proof.
  intros H. apply existsb_exists. exists index.
  split; [trivial | apply Array2i_eqb_refl].
Qed.

End FusionPass.

(** The fused map a pass starts from. *)
Lemma fuse_cell {lib : GridMapLib} (em : ElevationMap)
    (topLeftIndex size index : Array2i) (layer : string) :
  any size = true ->
  In index (SubmapIterator (rawMap_ em) topLeftIndex size) ->
  getTimestamp (fusedMap_ em) <> getTimestamp (rawMap_ em)
  \/ isValid (fusedMap_ em) index = false ->
  exists fusedMap,
    isValid fusedMap index = false
    /\ at_ (fusedMap_ (snd (fuse em topLeftIndex size))) layer index
       = at_ (fuseCell (rawMap_ em) fusedMap index) layer index.
Proof.
  intros Hsize Hin Hfresh. unfold fuse. rewrite Hsize. simpl Bool.eqb.
  cbv iota.
  destruct (getTimestamp (fusedMap_ em) =? getTimestamp (rawMap_ em))%N
    eqn:Et; simpl negb; cbv iota.
  - destruct Hfresh as [Hne|Hinv].
    { apply N.eqb_eq in Et. contradiction. }
    exists (fusedMap_ em). split; trivial.
    cbn [snd fusedMap_ withFusedMap]. rewrite at_setTimestamp.
    now rewrite fold_fuseCell_at, existsb_visited.
  - exists (fusedMap_ (resetFusedData em)). split; [reflexivity|].
    cbn [snd fusedMap_ withFusedMap]. rewrite at_setTimestamp.
    now rewrite fold_fuseCell_at, existsb_visited.
Qed.

(** *** The fusion engine: weights *)

Section Weights.

Context {lib : GridMapLib}.

Variable rawMapCopy : GridMap.
Variable index : Array2i.
Variables px py r : R.

Hypothesis position_finite : getPosition rawMapCopy index = (Fin px, Fin py).
Hypothesis resolution_positive :
  resolution_ rawMapCopy = Fin r /\ (0 < r)%R.

(** A cell without horizontal variance weighs one at its own centre. *)
Lemma weight_sharp :
  erfc NInf = Fin 2 -> erfc PInf = Fin 0 ->
  at_ rawMapCopy "horizontal_variance_x" index = Fin 0 ->
  at_ rawMapCopy "horizontal_variance_y" index = Fin 0 ->
  weight rawMapCopy (Fin px, Fin py) index = Fin 1.
Proof.
  intros Hlo Hhi Hx Hy. destruct resolution_positive as [Hr Hpos].
  unfold weight. rewrite position_finite, Hr, Hx, Hy, ssqrt_zero.
  cbn [fst snd ssub sopp sadd sabs sdiv].
  destruct (Req_dec_T 2 0); [exfalso; lra|].
  cbn [sadd sopp].
  replace (px + - px)%R with 0%R by lra.
  replace (py + - py)%R with 0%R by lra.
  rewrite Rabs_R0.
  rewrite (cumulativeDistributionFunction_above (a := 0 + r / 2))
    by (trivial; lra).
  rewrite (cumulativeDistributionFunction_below (a := 0 + - (r / 2)))
    by (trivial; lra).
  simpl. f_equal. lra.
Qed.

(** A cell whose horizontal variances diverged weighs nothing. *)
Lemma weight_diverged :
  erfc (Fin 0) = Fin 1 ->
  at_ rawMapCopy "horizontal_variance_x" index = PInf ->
  at_ rawMapCopy "horizontal_variance_y" index = PInf ->
  weight rawMapCopy (Fin px, Fin py) index = Fin 0.
Proof.
  intros Hmid Hx Hy. destruct resolution_positive as [Hr Hpos].
  unfold weight. rewrite position_finite, Hr, Hx, Hy.
  cbn [fst snd ssub sopp sadd sabs sdiv ssqrt].
  destruct (Req_dec_T 2 0); [exfalso; lra|].
  cbn [sadd sopp].
  rewrite !cumulativeDistributionFunction_flat by trivial.
  simpl. f_equal. lra.
Qed.

End Weights.

(** *** The fusion engine: a pass *)

Lemma fuse_no_extent {lib : GridMapLib} (em : ElevationMap)
    (topLeftIndex : Array2i) :
  fuse em topLeftIndex (0, 0)%Z = (false, em).
Proof. reflexivity. Qed.

(** A pass over a region with some non-zero extent runs to its end. *)
Lemma fuse_some_extent {lib : GridMapLib} (em : ElevationMap)
    (topLeftIndex size : Array2i) :
  any size = true ->
  fst (fuse em topLeftIndex size) = true
  /\ getTimestamp (fusedMap_ (snd (fuse em topLeftIndex size)))
     = getTimestamp (rawMap_ em).
Proof. intros H. unfold fuse. rewrite H. now split. Qed.

(** A pass on a fused map that is out of date. *)
Lemma fuse_stale {lib : GridMapLib} (em : ElevationMap)
    (topLeftIndex size : Array2i) :
  any size = true ->
  getTimestamp (fusedMap_ em) <> getTimestamp (rawMap_ em) ->
  fuse em topLeftIndex size
  = (true,
     withFusedMap (resetFusedData em)
       (setTimestamp
          (fold_left (fuseCell (rawMap_ em))
                     (SubmapIterator (rawMap_ em) topLeftIndex size)
                     (fusedMap_ (resetFusedData em)))
          (getTimestamp (rawMap_ em)))).
Proof.
  intros Hsize Hstale. unfold fuse. rewrite Hsize.
  apply N.eqb_neq in Hstale. now rewrite Hstale.
Qed.

(** C5. A pass that starts on a fused map whose timestamp is not the
    snapshot's works on the fused map after [resetFusedData], in which
    every cell is invalid and the timestamp is 0: the cells of the region
    are fused from there, and the pass ends with the snapshot's
    timestamp. *)
Theorem fuse_resets_stale_fused_map {lib : GridMapLib} (em : ElevationMap)
    (topLeftIndex size : Array2i) :
  any size = true ->
  getTimestamp (fusedMap_ em) <> getTimestamp (rawMap_ em) ->
  let stale := resetFusedData em in
  (forall index, isValid (fusedMap_ stale) index = false)
  /\ getTimestamp (fusedMap_ stale) = 0%N
  /\ fuse em topLeftIndex size
     = (true,
        withFusedMap stale
          (setTimestamp
             (fold_left (fuseCell (rawMap_ em))
                        (SubmapIterator (rawMap_ em) topLeftIndex size)
                        (fusedMap_ stale))
             (getTimestamp (rawMap_ em))))
  /\ getTimestamp (fusedMap_ (snd (fuse em topLeftIndex size)))
     = getTimestamp (rawMap_ em).
Proof.
  intros Hsize Hstale stale. repeat split.
  - now apply fuse_stale.
  - now apply fuse_some_extent.
Qed.

Lemma fuse_resets_stale_fused_map_witness :
  let em' := snd (fuse sharpExampleMap (0, 0)%Z (1, 1)%Z) in
  isValid (fusedMap_ (resetFusedData sharpExampleMap)) (0, 0)%Z = false
  /\ getTimestamp (fusedMap_ (resetFusedData sharpExampleMap)) = 0%N
  /\ getTimestamp (fusedMap_ em') = 5%N.
Proof.
  destruct (@fuse_resets_stale_fused_map oneCell sharpExampleMap
              (0, 0)%Z (1, 1)%Z) as (Hall & Hzero & _ & Hend).
  - reflexivity.
  - discriminate.
  - split; [apply Hall | split; [exact Hzero | exact Hend]].
Defined.

(** C3. A request of no rows and five columns is not skipped: whatever the
    iterator visits, the pass returns true and stamps the fused map, here
    with the raw timestamp 5 in place of 0. *)
Theorem fuse_runs_on_a_region_without_rows :
  forall (lib : GridMapLib) (topLeftIndex : Array2i),
    let r := fuse exampleMap topLeftIndex (0, 5)%Z in
    fst r = true
    /\ getTimestamp (fusedMap_ (snd r)) = 5%N
    /\ getTimestamp (fusedMap_ exampleMap) = 0%N.
Proof.
  intros lib topLeftIndex r. subst r.
  destruct (fuse_some_extent exampleMap topLeftIndex (0, 5)%Z eq_refl)
    as [Hr Ht].
  now rewrite Hr, Ht.
Qed.

(** What a pass writes to a cell of the region that is not yet fused and
    has candidates with a finite mean and variance: the weighted mean
    [fusedMean] and the moment [fusedVariance], which squares the
    candidates' variances. *)
Lemma fuse_writes_moments {lib : GridMapLib} (em : ElevationMap)
    (regionTopLeft size index : Array2i) (m s : R) :
  let raw := rawMap_ em in
  any size = true ->
  In index (SubmapIterator raw regionTopLeft size) ->
  getTimestamp (fusedMap_ em) <> getTimestamp raw
  \/ isValid (fusedMap_ em) index = false ->
  isValid raw index = true ->
  candidates raw index <> [] ->
  fusedMean (candidates raw index) = Fin m ->
  fusedVariance (candidates raw index) = Fin s ->
  let fusedMap' := fusedMap_ (snd (fuse em regionTopLeft size)) in
  at_ fusedMap' "elevation" index = fusedMean (candidates raw index)
  /\ at_ fusedMap' "variance" index = fusedVariance (candidates raw index)
  /\ at_ fusedMap' "color" index = at_ raw "color" index.
Proof.
  intros raw. subst raw.
  intros Hsize Hin Hfresh Hvalid Hcs Hm Hs fusedMap'. subst fusedMap'.
  repeat split.
  - destruct (fuse_cell em regionTopLeft size index "elevation"
                Hsize Hin Hfresh) as (fusedMap & Hinv & ->).
    rewrite (@fuseCell_fused lib (rawMap_ em) fusedMap index m s
               Hinv Hvalid Hcs Hm Hs).
    rewrite at_fused_writes. simpl. congruence.
  - destruct (fuse_cell em regionTopLeft size index "variance"
                Hsize Hin Hfresh) as (fusedMap & Hinv & ->).
    rewrite (@fuseCell_fused lib (rawMap_ em) fusedMap index m s
               Hinv Hvalid Hcs Hm Hs).
    rewrite at_fused_writes. simpl. congruence.
  - destruct (fuse_cell em regionTopLeft size index "color"
                Hsize Hin Hfresh) as (fusedMap & Hinv & ->).
    rewrite (@fuseCell_fused lib (rawMap_ em) fusedMap index m s
               Hinv Hvalid Hcs Hm Hs).
    rewrite at_fused_writes. simpl. congruence.
Qed.

(** *** The fusion engine on a cell that is alone in its footprint *)




Lemma alone_in_sharpExampleMap :
  let raw := rawMap_ sharpExampleMap in
  let info := neighbourhood raw (0, 0)%Z in
  filter (isValid raw)
    (SubmapIterator raw (topLeftIndex info) (submapBufferSize info))
  = [(0, 0)%Z].
Proof. reflexivity. Qed.

Lemma weight_in_sharpExampleMap :
  let raw := rawMap_ sharpExampleMap in
  weight raw (submapPosition (neighbourhood raw (0, 0)%Z)) (0, 0)%Z = Fin 1.
Proof.
  apply (@weight_sharp oneCell (rawMap_ sharpExampleMap) (0, 0)%Z 0 0 1);
    try reflexivity.
  split; [reflexivity | lra].
Qed.


(** *** The fused variance at a single candidate *)

Lemma fuse_sharpExampleMap :
  fusedMap_ (snd (fuse sharpExampleMap (0, 0)%Z (1, 1)%Z))
  = setTimestamp
      (fuseCell (rawMap_ sharpExampleMap)
                (fusedMap_ (resetFusedData sharpExampleMap)) (0, 0)%Z)
      5.
Proof. rewrite fuse_stale; [reflexivity | reflexivity | discriminate]. Qed.

Lemma candidates_sharpExampleMap :
  candidates (rawMap_ sharpExampleMap) (0, 0)%Z
  = [mkCandidate (Fin 1) (Fin 2) (Fin 1)].
Proof.
  rewrite (@candidates_alone oneCell _ _ alone_in_sharpExampleMap).
  now rewrite weight_in_sharpExampleMap.
Qed.

(** C1. On the one-cell map holding elevation 1 and variance 2 the cell
    has the single candidate (1, 2) of weight 1; the pass writes the mean 1
    and the variance 4 = 2 * 2, where the specification's second moment
    (1 * (2 + 1 * 1)) / 1 - 1 * 1 is 2. *)
Theorem fuse_squares_the_candidate_variances :
  let raw := rawMap_ sharpExampleMap in
  let fusedMap' := fusedMap_ (snd (fuse sharpExampleMap (0, 0)%Z (1, 1)%Z)) in
  candidates raw (0, 0)%Z = [mkCandidate (Fin 1) (Fin 2) (Fin 1)]
  /\ at_ fusedMap' "elevation" (0, 0)%Z
     = fusedMean (candidates raw (0, 0)%Z)
  /\ at_ fusedMap' "elevation" (0, 0)%Z = Fin 1
  /\ at_ fusedMap' "variance" (0, 0)%Z = Fin 4
  /\ specFusedVariance (candidates raw (0, 0)%Z) = Fin 2.
Proof.
  intros raw fusedMap'. subst raw fusedMap'.
  rewrite fuse_sharpExampleMap, !at_setTimestamp.
  rewrite fuseCell_fused with (m := 1%R) (s := (2 * 2)%R);
    try reflexivity; rewrite candidates_sharpExampleMap;
    try discriminate;
    try (apply fusedMean_single; lra);
    try (apply fusedVariance_single; lra).
  rewrite fusedMean_single by lra.
  rewrite specFusedVariance_single by lra.
  repeat split; read_back; trivial.
Qed.

(** *** A cell whose horizontal variances diverged *)


Lemma alone_in_divergedExampleMap :
  let raw := rawMap_ divergedExampleMap in
  let info := neighbourhood raw (0, 0)%Z in
  filter (isValid raw)
    (SubmapIterator raw (topLeftIndex info) (submapBufferSize info))
  = [(0, 0)%Z].
Proof. reflexivity. Qed.

Lemma erfcShape_zero : erfcShape (Fin 0) = Fin 1.
Proof. simpl. f_equal. unfold Rdiv. lra. Qed.




(** * Further properties of the update engine *)

(** ** The point integrator: the body of the loop *)

Section PointIntegratorSteps.

Context {lib : GridMapLib}.

Variable em : ElevationMap.
Variable point : PointXYZRGB.
Variable pointVariance : scalar.

Lemma addPoint_outside :
  getIndex (rawMap_ em) (x point, y point) = None ->
  addPoint em point pointVariance = em.
Proof. intros H. unfold addPoint. now rewrite H. Qed.

Lemma addPoint_init (index : Array2i) :
  getIndex (rawMap_ em) (x point, y point) = Some index ->
  isValid (rawMap_ em) index = false ->
  addPoint em point pointVariance
  = withRawMap em
      (setAt
         (setAt
            (setAt
               (setAt
                  (setAt (rawMap_ em) "elevation" index (z point))
                  "variance" index pointVariance)
               "horizontal_variance_x" index (minHorizontalVariance_ em))
            "horizontal_variance_y" index (minHorizontalVariance_ em))
         "color" index (colorVectorToValue (getRGBVector3i point))).
Proof. intros Hi Hv. unfold addPoint. now rewrite Hi, Hv. Qed.

(** A point writes to the raw map only: the fused map, the parameters and
    the raw timestamp are as before. *)
Lemma addPoint_keeps :
  let em' := addPoint em point pointVariance in
  withRawMap em' (rawMap_ em) = em
  /\ getTimestamp (rawMap_ em') = getTimestamp (rawMap_ em).
Proof.
  unfold addPoint.
  destruct (getIndex (rawMap_ em) (x point, y point)) as [index|];
    [|split; [now destruct em | reflexivity]].
  repeat match goal with
         | |- context [if ?b then _ else _] => destruct b
         end; (split; [now destruct em | reflexivity]).
Qed.

(** A point writes to the cell it falls in only. *)
Lemma addPoint_other_cell (index : Array2i) (layer : string) :
  getIndex (rawMap_ em) (x point, y point) <> Some index ->
  at_ (rawMap_ (addPoint em point pointVariance)) layer index
  = at_ (rawMap_ em) layer index.
Proof.
  intros Hne. unfold addPoint.
  destruct (getIndex (rawMap_ em) (x point, y point)) as [target|]; trivial.
  assert (Hidx : Array2i_eqb index target = false).
  { apply Array2i_eqb_neq. intros ->. now apply Hne. }
  repeat match goal with
         | |- context [if ?b then _ else _] => destruct b
         end; cbn [rawMap_ withRawMap];
    now rewrite !at_setAt, Hidx, !andb_false_r.
Qed.

End PointIntegratorSteps.

(** X1. A point that falls in a cell without prior information starts the
    cell: the elevation is the point's height, the variance the point's
    variance, both horizontal variances [minHorizontalVariance_], the
    colour the point's colour; the cell is valid afterwards exactly when
    height and variance are numbers, and no other cell changes. *)
Theorem add_starts_an_empty_cell {lib : GridMapLib} (em : ElevationMap)
    (point : PointXYZRGB) (pointVariance : scalar) (index : Array2i) :
  getIndex (rawMap_ em) (x point, y point) = Some index ->
  isValid (rawMap_ em) index = false ->
  let raw' := rawMap_ (addPoint em point pointVariance) in
  at_ raw' "elevation" index = z point
  /\ at_ raw' "variance" index = pointVariance
  /\ at_ raw' "horizontal_variance_x" index = minHorizontalVariance_ em
  /\ at_ raw' "horizontal_variance_y" index = minHorizontalVariance_ em
  /\ at_ raw' "color" index = colorVectorToValue (getRGBVector3i point)
  /\ isValid raw' index
     = negb (isnan (z point)) && negb (isnan pointVariance)
  /\ (forall layer index', index' <> index ->
        at_ raw' layer index' = at_ (rawMap_ em) layer index').
Proof.
  intros Hi Hv raw'. subst raw'.
  assert (E := @addPoint_init lib em point pointVariance index Hi Hv).
  repeat split.
  1-5: rewrite E; cbn [rawMap_ withRawMap]; read_back; trivial.
  - unfold isValid. rewrite E. cbn [rawMap_ withRawMap]. now read_back.
  - intros layer index' Hne. apply addPoint_other_cell.
    rewrite Hi. intros H. inversion H. now apply Hne.
Qed.

Lemma add_starts_an_empty_cell_witness :
  let raw' :=
    rawMap_ (addPoint emptyExampleMap (pointAbove (Fin 1)) (Fin (2 / 100))) in
  at_ raw' "elevation" (0, 0)%Z = Fin 1
  /\ at_ raw' "variance" (0, 0)%Z = Fin (2 / 100)
  /\ at_ raw' "horizontal_variance_x" (0, 0)%Z = Fin (1 / 10000)
  /\ isValid raw' (0, 0)%Z = true.
Proof.
  destruct (@add_starts_an_empty_cell oneCell emptyExampleMap
              (pointAbove (Fin 1)) (Fin (2 / 100)) (0, 0)%Z)
    as (He & Hv & Hx & _ & _ & Hvalid & _).
  - exact origin_in_exampleMap.
  - reflexivity.
  - repeat split; assumption.
Defined.

(** ** The point integrator: a whole cloud *)

(** Reading a cell after [clean]. *)
Lemma at_clean (em : ElevationMap) (layer : string) (index : Array2i) :
  at_ (rawMap_ (snd (clean em))) layer index
  = if layer =? "horizontal_variance_y" then
      VarianceClampOperator.operator
        (VarianceClampOperator.mk (minHorizontalVariance_ em)
                                  (maxHorizontalVariance_ em))
        (at_ (rawMap_ em) "horizontal_variance_y" index)
    else if layer =? "horizontal_variance_x" then
      VarianceClampOperator.operator
        (VarianceClampOperator.mk (minHorizontalVariance_ em)
                                  (maxHorizontalVariance_ em))
        (at_ (rawMap_ em) "horizontal_variance_x" index)
    else if layer =? "variance" then
      VarianceClampOperator.operator
        (VarianceClampOperator.mk (minVariance_ em) (maxVariance_ em))
        (at_ (rawMap_ em) "variance" index)
    else at_ (rawMap_ em) layer index.
Proof.
  unfold clean, at_, setLayer, get. cbn [snd rawMap_ withRawMap data_ withData].
  destruct (layer =? "horizontal_variance_y") eqn:Ey.
  { apply String.eqb_eq in Ey. now subst. }
  destruct (layer =? "horizontal_variance_x") eqn:Ex.
  { apply String.eqb_eq in Ex. now subst. }
  destruct (layer =? "variance") eqn:Ev; trivial.
Qed.

Lemma clean_keeps (em : ElevationMap) :
  withRawMap (snd (clean em)) (rawMap_ em) = em
  /\ getTimestamp (rawMap_ (snd (clean em))) = getTimestamp (rawMap_ em).
Proof. split; [now destruct em | reflexivity]. Qed.

Section PointCloud.

Context {lib : GridMapLib}.

Variable pointCloud : PointCloud.
Variable pointCloudVariances : list scalar.

(** The loop of [add] over the point indices [l]. *)
Let loop (l : list nat) (em : ElevationMap) : ElevationMap :=
  fold_left
    (fun em i =>
       addPoint em
         (nth i (points pointCloud) (mkPoint NaN NaN NaN (0, 0, 0)%Z))
         (nth i pointCloudVariances NaN))
    l em.

Lemma add_unfold (em : ElevationMap) :
  add em pointCloud pointCloudVariances
  = (true,
     let em' :=
       snd (clean (loop (seq 0 (List.length (points pointCloud))) em)) in
     withRawMap em'
       (setTimestamp (rawMap_ em') (uint64 (1000 * stamp pointCloud)))).
Proof. reflexivity. Qed.

Lemma loop_keeps (l : list nat) (em : ElevationMap) :
  withRawMap (loop l em) (rawMap_ em) = em
  /\ getTimestamp (rawMap_ (loop l em)) = getTimestamp (rawMap_ em).
Proof.
  revert em. induction l as [|i l IH]; intros em.
  - split; [now destruct em | reflexivity].
  - pose (em1 :=
            addPoint em
              (nth i (points pointCloud) (mkPoint NaN NaN NaN (0, 0, 0)%Z))
              (nth i pointCloudVariances NaN)).
    change (loop (i :: l) em) with (loop l em1).
    destruct (IH em1) as [Hk Ht].
    destruct (addPoint_keeps em
                (nth i (points pointCloud) (mkPoint NaN NaN NaN (0, 0, 0)%Z))
                (nth i pointCloudVariances NaN)) as [Hk1 Ht1].
    fold em1 in Hk1, Ht1. split.
    + transitivity
        (withRawMap (withRawMap (loop l em1) (rawMap_ em1)) (rawMap_ em));
        [reflexivity | now rewrite Hk].
    + now rewrite Ht.
Qed.

End PointCloud.

(** X2. [add] returns true, stamps the raw map with the cloud's stamp in
    nanoseconds (1000 times the stamp, modulo 2^64), and writes nothing
    but the raw map: the fused map and the parameters are as before. *)
Theorem add_stamps_and_keeps_the_fused_map {lib : GridMapLib}
    (em : ElevationMap) (pointCloud : PointCloud)
    (pointCloudVariances : list scalar) :
  let r := add em pointCloud pointCloudVariances in
  fst r = true
  /\ getTimestamp (rawMap_ (snd r)) = uint64 (1000 * stamp pointCloud)
  /\ withRawMap (snd r) (rawMap_ em) = em.
Proof.
  intros r. subst r. rewrite add_unfold. cbn [fst snd].
  repeat split.
  set (em1 := fold_left _ _ em).
  destruct (clean_keeps em1) as [Hc _].
  destruct (@loop_keeps lib pointCloud pointCloudVariances
              (seq 0 (List.length (points pointCloud))) em) as [Hl _].
  fold em1 in Hl.
  transitivity
    (withRawMap (withRawMap (snd (clean em1)) (rawMap_ em1)) (rawMap_ em));
    [reflexivity | now rewrite Hc].
Qed.

(** A point leaves the geometry and the timestamp of the raw map alone: it
    changes layer data only. *)
Lemma addPoint_data {lib : GridMapLib} (em : ElevationMap)
    (point : PointXYZRGB) (pointVariance : scalar) :
  exists d, rawMap_ (addPoint em point pointVariance)
            = withData (rawMap_ em) d.
Proof.
  unfold addPoint.
  destruct (getIndex (rawMap_ em) (x point, y point)) as [index|].
  - repeat match goal with
           | |- context [if ?b then _ else _] => destruct b
           end; eexists; reflexivity.
  - exists (data_ (rawMap_ em)). now destruct (rawMap_ em).
Qed.

(** A cell that none of the points falls in comes out of the loop of [add]
    as it went in, for a library whose [getIndex] does not read the layer
    data. *)
Lemma loop_misses {lib : GridMapLib} (pointCloud : PointCloud)
    (pointCloudVariances : list scalar) (index : Array2i) :
  (forall m d position, getIndex (withData m d) position
                        = getIndex m position) ->
  forall (l : list nat) (em : ElevationMap) (rawMap : GridMap),
    (exists d, rawMap_ em = withData rawMap d) ->
    (forall p, In p (points pointCloud) ->
               getIndex rawMap (x p, y p) <> Some index) ->
    (forall i, In i l -> (i < List.length (points pointCloud))%nat) ->
    let em' :=
      fold_left
        (fun em i =>
           addPoint em
             (nth i (points pointCloud) (mkPoint NaN NaN NaN (0, 0, 0)%Z))
             (nth i pointCloudVariances NaN))
        l em in
    forall layer,
      at_ (rawMap_ em') layer index = at_ (rawMap_ em) layer index.
Proof.
  intros Hlib. induction l as [|i l IH]; intros em rawMap [d Hd] Hmiss Hl;
    simpl; trivial.
  intros layer.
  set (p := nth i (points pointCloud) (mkPoint NaN NaN NaN (0, 0, 0)%Z)).
  set (pv := nth i pointCloudVariances NaN).
  assert (Hp : In p (points pointCloud)).
  { apply nth_In. apply Hl. now left. }
  rewrite (IH (addPoint em p pv) rawMap).
  - apply addPoint_other_cell. rewrite Hd, Hlib. now apply Hmiss.
  - destruct (addPoint_data em p pv) as [d' Hd'].
    exists d'. now rewrite Hd', Hd.
  - exact Hmiss.
  - intros j Hj. apply Hl. now right.
Qed.

(** X3. A cell that no point of the cloud falls in, by the raw map's
    [getIndex], keeps its elevation and its colour through [add]; its
    variance and horizontal variances are the clamps of what they were.
    The library's [getIndex] is taken not to read the layer data. *)
Theorem add_leaves_unobserved_cells {lib : GridMapLib}
    (em : ElevationMap) (pointCloud : PointCloud)
    (pointCloudVariances : list scalar) (index : Array2i) :
  (forall m d position, getIndex (withData m d) position
                        = getIndex m position) ->
  (forall p, In p (points pointCloud) ->
             getIndex (rawMap_ em) (x p, y p) <> Some index) ->
  let raw := rawMap_ em in
  let raw' := rawMap_ (snd (add em pointCloud pointCloudVariances)) in
  at_ raw' "elevation" index = at_ raw "elevation" index
  /\ at_ raw' "color" index = at_ raw "color" index
  /\ at_ raw' "variance" index
     = VarianceClampOperator.operator
         (VarianceClampOperator.mk (minVariance_ em) (maxVariance_ em))
         (at_ raw "variance" index)
  /\ at_ raw' "horizontal_variance_x" index
     = VarianceClampOperator.operator
         (VarianceClampOperator.mk (minHorizontalVariance_ em)
                                   (maxHorizontalVariance_ em))
         (at_ raw "horizontal_variance_x" index)
  /\ at_ raw' "horizontal_variance_y" index
     = VarianceClampOperator.operator
         (VarianceClampOperator.mk (minHorizontalVariance_ em)
                                   (maxHorizontalVariance_ em))
         (at_ raw "horizontal_variance_y" index).
Proof.
  intros Hlib Hmiss raw raw'. subst raw raw'. rewrite add_unfold.
  cbn [snd rawMap_ withRawMap]. cbv zeta. rewrite !at_setTimestamp.
  set (em1 := fold_left _ _ em).
  assert (Hcell : forall layer,
             at_ (rawMap_ em1) layer index = at_ (rawMap_ em) layer index).
  { apply (@loop_misses lib pointCloud pointCloudVariances index Hlib
             (seq 0 (List.length (points pointCloud))) em (rawMap_ em)).
    - exists (data_ (rawMap_ em)). now destruct (rawMap_ em).
    - exact Hmiss.
    - intros i Hi. apply in_seq in Hi. lia. }
  destruct (@loop_keeps lib pointCloud pointCloudVariances
              (seq 0 (List.length (points pointCloud))) em) as [Hl _].
  fold em1 in Hl.
  assert (Hmin : minVariance_ em1 = minVariance_ em) by now rewrite <- Hl.
  assert (Hmax : maxVariance_ em1 = maxVariance_ em) by now rewrite <- Hl.
  assert (Hminh : minHorizontalVariance_ em1 = minHorizontalVariance_ em)
    by now rewrite <- Hl.
  assert (Hmaxh : maxHorizontalVariance_ em1 = maxHorizontalVariance_ em)
    by now rewrite <- Hl.
  rewrite !at_clean. simpl (String.eqb _ _). cbv iota.
  now rewrite !Hcell, Hmin, Hmax, Hminh, Hmaxh.
Qed.

Lemma add_leaves_unobserved_cells_witness :
  let raw' :=
    rawMap_ (snd (add exampleMap (mkPointCloud 7 [farPoint])
                      [Fin (1 / 100)])) in
  at_ raw' "elevation" (0, 0)%Z = Fin 1
  /\ at_ raw' "color" (0, 0)%Z = Fin 7.
Proof.
  destruct (@add_leaves_unobserved_cells oneCell exampleMap
              (mkPointCloud 7 [farPoint]) [Fin (1 / 100)] (0, 0)%Z)
    as (He & Hc & _).
  - reflexivity.
  - intros p [<-|[]]. simpl. unfold inUnitCell. simpl.
    by_cases_R.
  - split; assumption.
Defined.

(** ** The point integrator: a measurement repeated *)

(** X5. Two equal measurements of an empty cell, of finite height [h] and
    positive finite variance [s], under a positive threshold: the first
    starts the cell and the second is fused into it, never taken for an
    outlier, its distance to the cell being 0.  The cell ends with the
    elevation [(s * h + s * h) / (s + s)] and the variance
    [(s * s) / (s + s)] of the fusion, the horizontal variances
    [minHorizontalVariance_] and the point's colour. *)
Theorem add_twice_fuses_the_second {lib : GridMapLib} (em : ElevationMap)
    (point : PointXYZRGB) (index : Array2i) (h s : R) :
  let em1 := addPoint em point (Fin s) in
  let em2 := addPoint em1 point (Fin s) in
  getIndex (rawMap_ em) (x point, y point) = Some index ->
  getIndex (rawMap_ em1) (x point, y point) = Some index ->
  isValid (rawMap_ em) index = false ->
  z point = Fin h ->
  (0 < s)%R ->
  (Fin 0 <? mahalanobisDistanceThreshold_ em)%S = true ->
  at_ (rawMap_ em2) "elevation" index
  = ((Fin s * Fin h + Fin s * Fin h) / (Fin s + Fin s))%S
  /\ at_ (rawMap_ em2) "variance" index
     = ((Fin s * Fin s) / (Fin s + Fin s))%S
  /\ at_ (rawMap_ em2) "horizontal_variance_x" index
     = minHorizontalVariance_ em
  /\ at_ (rawMap_ em2) "horizontal_variance_y" index
     = minHorizontalVariance_ em
  /\ at_ (rawMap_ em2) "color" index
     = colorVectorToValue (getRGBVector3i point).
Proof.
  intros em1 em2 Hi Hi1 Hhole Hz Hs Hthr.
  assert (E1 := @addPoint_init lib em point (Fin s) index Hi Hhole).
  fold em1 in E1.
  assert (He1 : at_ (rawMap_ em1) "elevation" index = Fin h).
  { rewrite E1. cbn [rawMap_ withRawMap]. read_back. exact Hz. }
  assert (Hv1 : at_ (rawMap_ em1) "variance" index = Fin s).
  { rewrite E1. cbn [rawMap_ withRawMap]. now read_back. }
  assert (Hx1 : at_ (rawMap_ em1) "horizontal_variance_x" index
                = minHorizontalVariance_ em).
  { rewrite E1. cbn [rawMap_ withRawMap]. now read_back. }
  assert (Hy1 : at_ (rawMap_ em1) "horizontal_variance_y" index
                = minHorizontalVariance_ em).
  { rewrite E1. cbn [rawMap_ withRawMap]. now read_back. }
  assert (Hvalid1 : isValid (rawMap_ em1) index = true).
  { unfold isValid. now rewrite He1, Hv1. }
  assert (Hthr1 : mahalanobisDistanceThreshold_ em1
                  = mahalanobisDistanceThreshold_ em) by now rewrite E1.
  assert (Hnear :
            (ssqrt (square (z point - at_ (rawMap_ em1) "elevation" index)
                    / at_ (rawMap_ em1) "variance" index)
             <? mahalanobisDistanceThreshold_ em1)%S = true).
  { rewrite He1, Hv1, Hz, Hthr1. unfold square. simpl.
    destruct (Req_dec_T s 0); [exfalso; lra|]. simpl.
    replace ((h + - h) * (h + - h) / s)%R with 0%R by (field; lra).
    destruct (Rlt_dec 0 0); [exfalso; lra|]. now rewrite sqrt_0. }
  subst em2.
  rewrite (@addPoint_fuse lib em1 point (Fin s) index Hi1 Hvalid1 Hnear).
  cbn [rawMap_ withRawMap]. rewrite He1, Hv1, Hz.
  repeat split; read_back; trivial.
Qed.

Lemma add_twice_fuses_the_second_witness :
  let em2 :=
    addPoint (addPoint emptyExampleMap (pointAbove (Fin 1)) (Fin (2 / 100)))
             (pointAbove (Fin 1)) (Fin (2 / 100)) in
  at_ (rawMap_ em2) "elevation" (0, 0)%Z
  = ((Fin (2 / 100) * Fin 1 + Fin (2 / 100) * Fin 1)
     / (Fin (2 / 100) + Fin (2 / 100)))%S
  /\ at_ (rawMap_ em2) "variance" (0, 0)%Z
     = ((Fin (2 / 100) * Fin (2 / 100))
        / (Fin (2 / 100) + Fin (2 / 100)))%S.
Proof.
  destruct (@add_twice_fuses_the_second oneCell emptyExampleMap
              (pointAbove (Fin 1)) (0, 0)%Z 1 (2 / 100))
    as (He & Hv & _).
  - exact origin_in_exampleMap.
  - exact origin_in_exampleMap.
  - reflexivity.
  - reflexivity.
  - lra.
  - simpl. by_cases_R.
  - split; assumption.
Defined.

(** ** The clamp after every mutation *)

Lemma operator_in_range (op : VarianceClampOperator.t) (v : scalar) :
  let v' := VarianceClampOperator.operator op v in
  (v' <? VarianceClampOperator.minVariance_ op)%S = false
  /\ ((VarianceClampOperator.minVariance_ op
       <=? VarianceClampOperator.maxVariance_ op)%S = true ->
      (v' >? VarianceClampOperator.maxVariance_ op)%S = true ->
      v' = PInf).
Proof.
  unfold VarianceClampOperator.operator.
  destruct (v <? _)%S eqn:E1.
  - split; [apply slt_irrefl|].
    intros Hle Hgt. unfold sgt in Hgt.
    rewrite (sle_not_gt _ _ Hle) in Hgt. discriminate.
  - destruct (v >? _)%S eqn:E2.
    + split; [apply slt_PInf_l | reflexivity].
    + split; [exact E1|]. intros _ Hgt. rewrite E2 in Hgt. discriminate.
Qed.

Lemma operator_isnan (op : VarianceClampOperator.t) (v : scalar) :
  isnan (VarianceClampOperator.operator op v) = isnan v.
Proof.
  unfold VarianceClampOperator.operator, sgt.
  destruct (v <? _)%S eqn:E1.
  - destruct v, (VarianceClampOperator.minVariance_ op);
      simpl in E1; try discriminate; reflexivity.
  - destruct (_ <? v)%S eqn:E2; trivial.
    destruct v, (VarianceClampOperator.maxVariance_ op);
      simpl in E2; try discriminate; reflexivity.
Qed.

Lemma operator_twice (op : VarianceClampOperator.t) (v : scalar) :
  (VarianceClampOperator.minVariance_ op
   <=? VarianceClampOperator.maxVariance_ op)%S = true ->
  VarianceClampOperator.operator op (VarianceClampOperator.operator op v)
  = VarianceClampOperator.operator op v.
Proof.
  intros Hle. pose proof (sle_not_gt _ _ Hle) as Hgt.
  unfold VarianceClampOperator.operator at 2 3.
  destruct (v <? _)%S eqn:E1.
  - unfold VarianceClampOperator.operator, sgt. now rewrite slt_irrefl, Hgt.
  - destruct (v >? _)%S eqn:E2; [apply clamp_PInf|].
    unfold VarianceClampOperator.operator. now rewrite E1, E2.
Qed.

(** The state [add] cleans: the state it was given, with the raw map the
    loop over the points leaves. *)
Lemma add_cleans {lib : GridMapLib} (em : ElevationMap)
    (pointCloud : PointCloud) (pointCloudVariances : list scalar) :
  exists rawMap,
    forall layer index,
      at_ (rawMap_ (snd (add em pointCloud pointCloudVariances))) layer index
      = at_ (rawMap_ (snd (clean (withRawMap em rawMap)))) layer index.
Proof.
  rewrite add_unfold. cbn [snd rawMap_ withRawMap]. cbv zeta.
  set (em1 := fold_left _ _ em).
  exists (rawMap_ em1). intros layer index. rewrite at_setTimestamp.
  destruct (@loop_keeps lib pointCloud pointCloudVariances
              (seq 0 (List.length (points pointCloud))) em) as [Hl _].
  fold em1 in Hl.
  replace (withRawMap em (rawMap_ em1)) with em1; trivial.
  rewrite <- Hl. now destruct em1.
Qed.

(** X6. After [add] no cell of the variance layer is below [minVariance_],
    and with [minVariance_ <= maxVariance_] a cell above [maxVariance_] is
    +infinity; likewise both horizontal variance layers with the
    horizontal bounds. *)
Theorem add_leaves_variances_in_range {lib : GridMapLib} (em : ElevationMap)
    (pointCloud : PointCloud) (pointCloudVariances : list scalar)
    (index : Array2i) :
  let raw' := rawMap_ (snd (add em pointCloud pointCloudVariances)) in
  let inRange (min max v : scalar) :=
    (v <? min)%S = false
    /\ ((min <=? max)%S = true -> (v >? max)%S = true -> v = PInf) in
  inRange (minVariance_ em) (maxVariance_ em) (at_ raw' "variance" index)
  /\ inRange (minHorizontalVariance_ em) (maxHorizontalVariance_ em)
             (at_ raw' "horizontal_variance_x" index)
  /\ inRange (minHorizontalVariance_ em) (maxHorizontalVariance_ em)
             (at_ raw' "horizontal_variance_y" index).
Proof.
  intros raw' inRange. subst raw' inRange.
  destruct (add_cleans em pointCloud pointCloudVariances) as [rawMap E].
  rewrite !E, !at_clean. simpl (String.eqb _ _). cbv iota.
  cbn [minVariance_ maxVariance_ minHorizontalVariance_
       maxHorizontalVariance_ withRawMap].
  repeat split;
    match goal with
    | |- (VarianceClampOperator.operator ?op ?v <? _)%S = false =>
        apply (operator_in_range op v)
    | |- _ -> _ -> VarianceClampOperator.operator ?op ?v = PInf =>
        apply (operator_in_range op v)
    end.
Qed.

Lemma add_leaves_variances_in_range_witness :
  let raw' :=
    rawMap_ (snd (add exampleMap (mkPointCloud 7 [pointAbove (Fin 5)])
                      [Fin (1 / 100)])) in
  (at_ raw' "variance" (0, 0)%Z <? Fin (1 / 10000))%S = false
  /\ ((at_ raw' "variance" (0, 0)%Z >? Fin (5 / 100))%S = true ->
      at_ raw' "variance" (0, 0)%Z = PInf).
Proof.
  destruct (@add_leaves_variances_in_range oneCell exampleMap
              (mkPointCloud 7 [pointAbove (Fin 5)]) [Fin (1 / 100)]
              (0, 0)%Z) as ((Hmin & Hmax) & _).
  split; [exact Hmin|]. apply Hmax. simpl. by_cases_R.
Defined.

(** X7. [clean] keeps what is not a number and what is a number apart, in
    every layer: a cell holds not-a-number after [clean] exactly when it
    did before (the comparisons of the clamp are false on not-a-number,
    and a bound that a value is compared below or above is a number). *)
Theorem clean_keeps_nan (em : ElevationMap) (layer : string)
    (index : Array2i) :
  isnan (at_ (rawMap_ (snd (clean em))) layer index)
  = isnan (at_ (rawMap_ em) layer index).
Proof.
  rewrite at_clean.
  destruct (layer =? "horizontal_variance_y") eqn:Ey.
  { apply String.eqb_eq in Ey. subst. apply operator_isnan. }
  destruct (layer =? "horizontal_variance_x") eqn:Ex.
  { apply String.eqb_eq in Ex. subst. apply operator_isnan. }
  destruct (layer =? "variance") eqn:Ev; trivial.
  apply String.eqb_eq in Ev. subst. apply operator_isnan.
Qed.

(** X8. With ordered bounds a second [clean] changes no cell of any
    layer. *)
Theorem clean_twice (em : ElevationMap) (layer : string) (index : Array2i) :
  (minVariance_ em <=? maxVariance_ em)%S = true ->
  (minHorizontalVariance_ em <=? maxHorizontalVariance_ em)%S = true ->
  at_ (rawMap_ (snd (clean (snd (clean em))))) layer index
  = at_ (rawMap_ (snd (clean em))) layer index.
Proof.
  intros Hv Hh. rewrite (at_clean (snd (clean em))).
  change (minVariance_ (snd (clean em))) with (minVariance_ em).
  change (maxVariance_ (snd (clean em))) with (maxVariance_ em).
  change (minHorizontalVariance_ (snd (clean em)))
    with (minHorizontalVariance_ em).
  change (maxHorizontalVariance_ (snd (clean em)))
    with (maxHorizontalVariance_ em).
  rewrite !at_clean. simpl (String.eqb _ _). cbv iota.
  destruct (layer =? "horizontal_variance_y"); [now apply operator_twice|].
  destruct (layer =? "horizontal_variance_x"); [now apply operator_twice|].
  destruct (layer =? "variance"); [now apply operator_twice|].
  reflexivity.
Qed.

Lemma clean_twice_witness :
  at_ (rawMap_ (snd (clean (snd (clean exampleMap))))) "variance" (0, 0)%Z
  = at_ (rawMap_ (snd (clean exampleMap))) "variance" (0, 0)%Z.
Proof.
  apply clean_twice; simpl; by_cases_R.
Defined.

(** ** The exogenous update and the holes *)

(** Reading a cell after an update that fits. *)
Lemma at_update (em : ElevationMap)
    (varianceUpdate hvxUpdate hvyUpdate : Matrix) (time : Time)
    (layer : string) (index : Array2i) :
  fst (update em varianceUpdate hvxUpdate hvyUpdate time) = true ->
  at_ (rawMap_ (snd (update em varianceUpdate hvxUpdate hvyUpdate time)))
      layer index
  = if layer =? "horizontal_variance_y" then
      VarianceClampOperator.operator
        (VarianceClampOperator.mk (minHorizontalVariance_ em)
                                  (maxHorizontalVariance_ em))
        (at_ (rawMap_ em) "horizontal_variance_y" index
         + coeff hvyUpdate index)%S
    else if layer =? "horizontal_variance_x" then
      VarianceClampOperator.operator
        (VarianceClampOperator.mk (minHorizontalVariance_ em)
                                  (maxHorizontalVariance_ em))
        (at_ (rawMap_ em) "horizontal_variance_x" index
         + coeff hvxUpdate index)%S
    else if layer =? "variance" then
      VarianceClampOperator.operator
        (VarianceClampOperator.mk (minVariance_ em) (maxVariance_ em))
        (at_ (rawMap_ em) "variance" index + coeff varianceUpdate index)%S
    else at_ (rawMap_ em) layer index.
Proof.
  unfold update.
  destruct (sameSize varianceUpdate _ && sameSize hvxUpdate _
            && sameSize hvyUpdate _); simpl negb; cbv iota;
    [|discriminate].
  intros _. cbn [snd rawMap_ withRawMap]. rewrite at_setTimestamp.
  rewrite at_clean.
  cbn [minVariance_ maxVariance_ minHorizontalVariance_
       maxHorizontalVariance_ rawMap_ withRawMap].
  unfold at_, setLayer, get. cbn [data_ withData]. simpl (String.eqb _ _).
  cbv iota.
  destruct (layer =? "horizontal_variance_y") eqn:Ey; trivial.
  destruct (layer =? "horizontal_variance_x") eqn:Ex; trivial.
  destruct (layer =? "variance") eqn:Ev; trivial.
Qed.

Lemma update_fails (em : ElevationMap)
    (varianceUpdate hvxUpdate hvyUpdate : Matrix) (time : Time) :
  fst (update em varianceUpdate hvxUpdate hvyUpdate time) = false ->
  update em varianceUpdate hvxUpdate hvyUpdate time = (false, em).
Proof.
  unfold update.
  destruct (sameSize varianceUpdate _ && sameSize hvxUpdate _
            && sameSize hvyUpdate _); simpl negb; cbv iota;
    [discriminate | reflexivity].
Qed.

Lemma sadd_NaN_l (a : scalar) : (NaN + a)%S = NaN.
Proof. reflexivity. Qed.

(** X9. An update never fills a hole: a cell that is invalid before it is
    invalid after it, whatever the deltas and whether or not they fit. *)
Theorem update_keeps_holes (em : ElevationMap)
    (varianceUpdate hvxUpdate hvyUpdate : Matrix) (time : Time)
    (index : Array2i) :
  isValid (rawMap_ em) index = false ->
  isValid
    (rawMap_ (snd (update em varianceUpdate hvxUpdate hvyUpdate time))) index
  = false.
Proof.
  intros Hhole.
  destruct (fst (update em varianceUpdate hvxUpdate hvyUpdate time)) eqn:Hr.
  - unfold isValid in *. rewrite !at_update by trivial.
    simpl (String.eqb _ _). cbv iota. rewrite operator_isnan.
    apply andb_false_iff in Hhole. apply andb_false_iff.
    destruct Hhole as [He|Hv]; [now left | right].
    destruct (at_ (rawMap_ em) "variance" index); try discriminate.
    reflexivity.
  - now rewrite update_fails.
Qed.

Lemma update_keeps_holes_witness :
  let delta := mkMatrix 1 1 (fun _ => Fin (1 / 1000)) in
  isValid
    (rawMap_ (snd (update emptyExampleMap delta delta delta (mkTime 1 2))))
    (0, 0)%Z
  = false.
Proof.
  apply update_keeps_holes. reflexivity.
Defined.

(** X10. After an update that succeeds no cell of the variance layer is
    below [minVariance_], and with [minVariance_ <= maxVariance_] a cell
    above [maxVariance_] is +infinity; likewise both horizontal variance
    layers with the horizontal bounds. *)
Theorem update_leaves_variances_in_range (em : ElevationMap)
    (varianceUpdate hvxUpdate hvyUpdate : Matrix) (time : Time)
    (index : Array2i) :
  fst (update em varianceUpdate hvxUpdate hvyUpdate time) = true ->
  let raw' :=
    rawMap_ (snd (update em varianceUpdate hvxUpdate hvyUpdate time)) in
  let inRange (min max v : scalar) :=
    (v <? min)%S = false
    /\ ((min <=? max)%S = true -> (v >? max)%S = true -> v = PInf) in
  inRange (minVariance_ em) (maxVariance_ em) (at_ raw' "variance" index)
  /\ inRange (minHorizontalVariance_ em) (maxHorizontalVariance_ em)
             (at_ raw' "horizontal_variance_x" index)
  /\ inRange (minHorizontalVariance_ em) (maxHorizontalVariance_ em)
             (at_ raw' "horizontal_variance_y" index).
Proof.
  intros Hok raw' inRange. subst raw' inRange.
  rewrite !at_update by trivial. simpl (String.eqb _ _). cbv iota.
  repeat split;
    match goal with
    | |- (VarianceClampOperator.operator ?op ?v <? _)%S = false =>
        apply (operator_in_range op v)
    | |- _ -> _ -> VarianceClampOperator.operator ?op ?v = PInf =>
        apply (operator_in_range op v)
    end.
Qed.

Lemma update_leaves_variances_in_range_witness :
  let delta := mkMatrix 1 1 (fun _ => Fin 1) in
  at_ (rawMap_ (snd (update exampleMap delta delta delta (mkTime 1 2))))
      "variance" (0, 0)%Z
  = PInf.
Proof.
  pose (delta := mkMatrix 1 1 (fun _ => Fin 1)).
  destruct (@update_leaves_variances_in_range exampleMap delta delta delta
              (mkTime 1 2) (0, 0)%Z eq_refl) as ((_ & Hmax) & _).
  apply Hmax.
  - simpl. by_cases_R.
  - rewrite at_update by reflexivity. simpl (String.eqb _ _). cbv iota.
    unfold VarianceClampOperator.operator, sgt. simpl. by_cases_R.
Defined.

(** ** The fusion engine: what a pass leaves alone *)

Lemma existsb_not_visited (cells : list Array2i) (index : Array2i) :
  ~ In index cells -> existsb (Array2i_eqb index) cells = false.
Proof.
  intros H. destruct (existsb _ cells) eqn:E; trivial.
  apply existsb_exists in E. destruct E as (c & Hc & Heq).
  apply Array2i_eqb_eq in Heq. now subst.
Qed.

(** The cell [index] after a pass, read from the fused map the loop starts
    from: the fused map after [resetFusedData] if it was out of date, the
    fused map as it was otherwise. *)
Lemma at_fuse {lib : GridMapLib} (em : ElevationMap)
    (regionTopLeft size index : Array2i) (layer : string) :
  any size = true ->
  let start :=
    if (getTimestamp (fusedMap_ em) =? getTimestamp (rawMap_ em))%N
    then fusedMap_ em else fusedMap_ (resetFusedData em) in
  at_ (fusedMap_ (snd (fuse em regionTopLeft size))) layer index
  = if existsb (Array2i_eqb index)
         (SubmapIterator (rawMap_ em) regionTopLeft size)
    then at_ (fuseCell (rawMap_ em) start index) layer index
    else at_ start layer index.
Proof.
  intros Hsize start. subst start. unfold fuse. rewrite Hsize.
  simpl Bool.eqb. cbv iota.
  destruct (getTimestamp (fusedMap_ em) =? getTimestamp (rawMap_ em))%N;
    simpl negb; cbv iota; cbn [snd fusedMap_ withFusedMap];
    rewrite at_setTimestamp; apply fold_fuseCell_at.
Qed.

Lemma fuse_skipped {lib : GridMapLib} (em : ElevationMap)
    (regionTopLeft size : Array2i) :
  any size = false -> fuse em regionTopLeft size = (false, em).
Proof. intros H. unfold fuse. now rewrite H. Qed.

(** X11. A pass writes nothing but cells of the fused map that its
    iterator visits: the raw map and the parameters are as before, and a
    cell the iterator does not visit keeps every layer when the fused map
    was up to date, and is invalid when the pass found it out of date. *)
Theorem fuse_writes_visited_cells_only {lib : GridMapLib}
    (em : ElevationMap) (regionTopLeft size index : Array2i) :
  let em' := snd (fuse em regionTopLeft size) in
  withFusedMap em' (fusedMap_ em) = em
  /\ (~ In index (SubmapIterator (rawMap_ em) regionTopLeft size) ->
      (getTimestamp (fusedMap_ em) = getTimestamp (rawMap_ em) ->
       forall layer,
         at_ (fusedMap_ em') layer index = at_ (fusedMap_ em) layer index)
      /\ (getTimestamp (fusedMap_ em) <> getTimestamp (rawMap_ em) ->
          any size = true ->
          isValid (fusedMap_ em') index = false)).
Proof.
  intros em'. subst em'. split.
  - unfold fuse. destruct (Bool.eqb (any size) false); [now destruct em|].
    destruct (negb _); now destruct em.
  - intros Hout. apply existsb_not_visited in Hout. split.
    + intros Ht layer. destruct (any size) eqn:Hsize.
      * rewrite at_fuse by trivial. rewrite Hout.
        apply N.eqb_eq in Ht. now rewrite Ht.
      * now rewrite fuse_skipped.
    + intros Ht Hsize. unfold isValid. rewrite !at_fuse by trivial.
      rewrite Hout. apply N.eqb_neq in Ht. now rewrite Ht.
Qed.

Lemma fuse_writes_visited_cells_only_witness :
  let em' := snd (fuse sharpExampleMap (0, 0)%Z (1, 1)%Z) in
  isValid (fusedMap_ em') (3, 4)%Z = false.
Proof.
  destruct (@fuse_writes_visited_cells_only oneCell sharpExampleMap
              (0, 0)%Z (1, 1)%Z (3, 4)%Z) as (_ & Hout).
  destruct Hout as (_ & Hstale).
  - simpl. intros [H|[]]. discriminate H.
  - apply Hstale; [discriminate | reflexivity].
Defined.

(** X12. A pass invents no data: a cell that is a hole of the raw map and
    invalid in the fused map is invalid in the fused map after the pass,
    and so is every hole of the raw map after a pass that found the fused
    map out of date. *)
Theorem fuse_keeps_holes {lib : GridMapLib} (em : ElevationMap)
    (regionTopLeft size index : Array2i) :
  isValid (rawMap_ em) index = false ->
  isValid (fusedMap_ em) index = false
  \/ (any size = true
      /\ getTimestamp (fusedMap_ em) <> getTimestamp (rawMap_ em)) ->
  isValid (fusedMap_ (snd (fuse em regionTopLeft size))) index = false.
Proof.
  intros Hhole Hfresh.
  destruct (any size) eqn:Hsize.
  - unfold isValid. rewrite !at_fuse by trivial.
    rewrite fuseCell_hole by trivial.
    destruct (existsb _ _);
      destruct (getTimestamp (fusedMap_ em) =? getTimestamp (rawMap_ em))%N
        eqn:Et; try reflexivity;
      (destruct Hfresh as [Hinv|[_ Hne]];
       [exact Hinv | apply N.eqb_eq in Et; contradiction]).
  - rewrite fuse_skipped by trivial.
    destruct Hfresh as [Hinv|[Habs _]]; [exact Hinv | discriminate].
Qed.

Lemma fuse_keeps_holes_witness :
  isValid (fusedMap_ (snd (fuse emptyExampleMap (0, 0)%Z (1, 1)%Z)))
          (0, 0)%Z
  = false.
Proof.
  apply fuse_keeps_holes; [reflexivity | left; reflexivity].
Defined.

(** X13. A cell that is valid in an up-to-date fused map is not fused
    again: every layer of it is the same after the pass. *)
Theorem fuse_skips_fused_cells {lib : GridMapLib} (em : ElevationMap)
    (regionTopLeft size index : Array2i) (layer : string) :
  getTimestamp (fusedMap_ em) = getTimestamp (rawMap_ em) ->
  isValid (fusedMap_ em) index = true ->
  at_ (fusedMap_ (snd (fuse em regionTopLeft size))) layer index
  = at_ (fusedMap_ em) layer index.
Proof.
  intros Ht Hvalid. destruct (any size) eqn:Hsize.
  - rewrite at_fuse by trivial. apply N.eqb_eq in Ht. rewrite Ht.
    rewrite fuseCell_already_fused by trivial.
    now destruct (existsb _ _).
  - now rewrite fuse_skipped.
Qed.

Lemma fuse_skips_fused_cells_witness :
  at_ (fusedMap_ (snd (fuse fusedExampleMap (0, 0)%Z (1, 1)%Z)))
      "variance" (0, 0)%Z
  = Fin 4.
Proof.
  apply (@fuse_skips_fused_cells oneCell fusedExampleMap
           (0, 0)%Z (1, 1)%Z (0, 0)%Z "variance"); reflexivity.
Defined.

Lemma fuse_keeps_raw {lib : GridMapLib} (em : ElevationMap)
    (regionTopLeft size : Array2i) :
  rawMap_ (snd (fuse em regionTopLeft size)) = rawMap_ em.
Proof.
  unfold fuse. destruct (Bool.eqb (any size) false); trivial.
  now destruct (negb _).
Qed.

(** X14. Fusion is idempotent for a snapshot: a second pass over the same
    region of an unchanged raw map returns true and leaves every layer of
    every fused cell, and the fused timestamp, as the first pass left
    them. *)
Theorem fuse_twice {lib : GridMapLib} (em : ElevationMap)
    (regionTopLeft size index : Array2i) (layer : string) :
  any size = true ->
  let em1 := snd (fuse em regionTopLeft size) in
  let r2 := fuse em1 regionTopLeft size in
  fst r2 = true
  /\ at_ (fusedMap_ (snd r2)) layer index = at_ (fusedMap_ em1) layer index
  /\ getTimestamp (fusedMap_ (snd r2)) = getTimestamp (fusedMap_ em1)
  /\ rawMap_ (snd r2) = rawMap_ em.
Proof.
  intros Hsize em1 r2. subst r2.
  assert (Hraw : rawMap_ em1 = rawMap_ em) by apply fuse_keeps_raw.
  destruct (fuse_some_extent em regionTopLeft size Hsize) as [_ Ht1].
  fold em1 in Ht1.
  destruct (fuse_some_extent em1 regionTopLeft size Hsize) as [Hr2 Ht2].
  repeat split; trivial.
  - rewrite at_fuse by trivial. rewrite Hraw, Ht1, N.eqb_refl.
    destruct (existsb _ _) eqn:Hvisited; trivial.
    set (start :=
           if (getTimestamp (fusedMap_ em) =? getTimestamp (rawMap_ em))%N
           then fusedMap_ em else fusedMap_ (resetFusedData em)).
    assert (Hcell : forall l,
               at_ (fusedMap_ em1) l index
               = at_ (fuseCell (rawMap_ em) start index) l index).
    { intros l. unfold em1. rewrite at_fuse by trivial.
      now rewrite Hvisited. }
    rewrite (fuseCell_local (rawMap_ em) _ _ index Hcell).
    now rewrite fuseCell_idempotent, Hcell.
  - now rewrite Ht2, Hraw, Ht1.
  - now rewrite fuse_keeps_raw.
Qed.

Lemma fuse_twice_witness :
  let em1 := snd (fuse sharpExampleMap (0, 0)%Z (1, 1)%Z) in
  fst (fuse em1 (0, 0)%Z (1, 1)%Z) = true
  /\ at_ (fusedMap_ (snd (fuse em1 (0, 0)%Z (1, 1)%Z))) "elevation" (0, 0)%Z
     = at_ (fusedMap_ em1) "elevation" (0, 0)%Z.
Proof.
  destruct (@fuse_twice oneCell sharpExampleMap (0, 0)%Z (1, 1)%Z (0, 0)%Z
              "elevation" eq_refl) as (Hr & Hcell & _).
  split; assumption.
Defined.

(** X15. What a pass computes from candidates is finite: a cell the
    iterator visits, not yet fused, with at least one candidate, is after
    the pass either still invalid or holds a finite elevation and a finite
    variance. *)
Theorem fuse_writes_finite_values {lib : GridMapLib} (em : ElevationMap)
    (regionTopLeft size index : Array2i) :
  any size = true ->
  In index (SubmapIterator (rawMap_ em) regionTopLeft size) ->
  getTimestamp (fusedMap_ em) <> getTimestamp (rawMap_ em)
  \/ isValid (fusedMap_ em) index = false ->
  candidates (rawMap_ em) index <> [] ->
  let fusedMap' := fusedMap_ (snd (fuse em regionTopLeft size)) in
  isValid fusedMap' index = false
  \/ (isfinite (at_ fusedMap' "elevation" index) = true
      /\ isfinite (at_ fusedMap' "variance" index) = true).
Proof.
  intros Hsize Hin Hfresh Hcs fusedMap'. subst fusedMap'.
  unfold isValid. rewrite !at_fuse by trivial.
  rewrite (existsb_visited _ _ Hin).
  set (start :=
         if (getTimestamp (fusedMap_ em) =? getTimestamp (rawMap_ em))%N
         then fusedMap_ em else fusedMap_ (resetFusedData em)).
  assert (Hstart : isValid start index = false).
  { subst start.
    destruct (getTimestamp (fusedMap_ em) =? getTimestamp (rawMap_ em))%N
      eqn:Et; [|reflexivity].
    destruct Hfresh as [Hne|Hinv]; trivial.
    apply N.eqb_eq in Et. contradiction. }
  destruct (isValid (rawMap_ em) index) eqn:Hraw.
  2: { left. rewrite fuseCell_hole by trivial. exact Hstart. }
  destruct (isfinite (fusedVariance (candidates (rawMap_ em) index))
            && isfinite (fusedMean (candidates (rawMap_ em) index)))
    eqn:Hfin.
  - right. apply andb_true_iff in Hfin. destruct Hfin as [Hv Hm].
    destruct (fusedMean (candidates (rawMap_ em) index)) as [m| | |] eqn:Em;
      try discriminate.
    destruct (fusedVariance (candidates (rawMap_ em) index))
      as [s| | |] eqn:Es; try discriminate.
    rewrite (@fuseCell_fused lib (rawMap_ em) start index m s
               Hstart Hraw Hcs Em Es).
    now rewrite !at_fused_writes.
  - left. rewrite fuseCell_discarded by trivial. exact Hstart.
Qed.

Lemma fuse_writes_finite_values_witness :
  let fusedMap' := fusedMap_ (snd (fuse sharpExampleMap (0, 0)%Z (1, 1)%Z)) in
  isValid fusedMap' (0, 0)%Z = false
  \/ (isfinite (at_ fusedMap' "elevation" (0, 0)%Z) = true
      /\ isfinite (at_ fusedMap' "variance" (0, 0)%Z) = true).
Proof.
  apply (@fuse_writes_finite_values oneCell sharpExampleMap
           (0, 0)%Z (1, 1)%Z (0, 0)%Z).
  - reflexivity.
  - left. reflexivity.
  - left. discriminate.
  - rewrite candidates_sharpExampleMap. discriminate.
Defined.

(** ** The fusion engine: the weight at the ends of the footprint *)

(** X17. The weight of a cell seen from its own centre, on a grid of
    positive resolution: 1 when the cell has no horizontal variance (all of
    the mass falls in the cell), 0 when its horizontal variances are
    +infinity (the mass is spread flat).  [erfc] enters with its values at
    the infinities and at zero. *)
Theorem weight_at_the_extremes {lib : GridMapLib} (rawMapCopy : GridMap)
    (index : Array2i) (px py r : R) :
  getPosition rawMapCopy index = (Fin px, Fin py) ->
  resolution_ rawMapCopy = Fin r ->
  (0 < r)%R ->
  (erfc NInf = Fin 2 -> erfc PInf = Fin 0 ->
   at_ rawMapCopy "horizontal_variance_x" index = Fin 0 ->
   at_ rawMapCopy "horizontal_variance_y" index = Fin 0 ->
   weight rawMapCopy (Fin px, Fin py) index = Fin 1)
  /\ (erfc (Fin 0) = Fin 1 ->
      at_ rawMapCopy "horizontal_variance_x" index = PInf ->
      at_ rawMapCopy "horizontal_variance_y" index = PInf ->
      weight rawMapCopy (Fin px, Fin py) index = Fin 0).
Proof.
  intros Hp Hr Hpos. split.
  - intros Hlo Hhi Hx Hy.
    now apply (@weight_sharp lib rawMapCopy index px py r Hp (conj Hr Hpos)).
  - intros Hmid Hx Hy.
    now apply (@weight_diverged lib rawMapCopy index px py r Hp
                 (conj Hr Hpos)).
Qed.

Lemma weight_at_the_extremes_witness :
  weight (rawMap_ sharpExampleMap) (Fin 0, Fin 0) (0, 0)%Z = Fin 1
  /\ weight (rawMap_ divergedExampleMap) (Fin 0, Fin 0) (0, 0)%Z = Fin 0.
Proof.
  destruct (@weight_at_the_extremes oneCell (rawMap_ sharpExampleMap)
              (0, 0)%Z 0 0 1 eq_refl eq_refl) as (Hsharp & _); [lra|].
  destruct (@weight_at_the_extremes oneCell (rawMap_ divergedExampleMap)
              (0, 0)%Z 0 0 1 eq_refl eq_refl) as (_ & Hflat); [lra|].
  split.
  - apply Hsharp; reflexivity.
  - apply Hflat; [exact erfcShape_zero | reflexivity | reflexivity].
Defined.

(** ** The fusion engine: a cell alone in its footprint *)

(** With infinite horizontal variances the weight is 0 from any finite
    centre, on a grid of finite resolution. *)
Lemma weight_flat {lib : GridMapLib} (rawMapCopy : GridMap)
    (index : Array2i) (px py cx cy r : R) :
  erfc (Fin 0) = Fin 1 ->
  getPosition rawMapCopy index = (Fin px, Fin py) ->
  resolution_ rawMapCopy = Fin r ->
  at_ rawMapCopy "horizontal_variance_x" index = PInf ->
  at_ rawMapCopy "horizontal_variance_y" index = PInf ->
  weight rawMapCopy (Fin cx, Fin cy) index = Fin 0.
Proof.
  intros Hmid Hp Hr Hx Hy.
  unfold weight. rewrite Hp, Hr, Hx, Hy.
  cbn [fst snd ssub sopp sadd sabs sdiv ssqrt].
  destruct (Req_dec_T 2 0); [exfalso; lra|].
  cbn [sadd sopp].
  rewrite !cumulativeDistributionFunction_flat by trivial.
  simpl. f_equal. lra.
Qed.

(** A single candidate of weight zero has no mean, whatever it holds. *)
Lemma fusedMean_weightless (e v : scalar) :
  fusedMean [mkCandidate e v (Fin 0)] = NaN.
Proof.
  unfold fusedMean. destruct e; simpl; trivial.
  - destruct (Req_dec_T (0 + 0) 0); [|exfalso; lra].
    replace (0 * r + 0)%R with 0%R by lra. now rewrite Rsign_zero.
  - now rewrite Rsign_zero.
  - now rewrite Rsign_zero.
Qed.

(** X19. A cell that is alone in its submap and whose horizontal variances
    are +infinity is not fused: its weight is 0 from wherever the submap is
    centred, the weighted mean is 0/0, and the pass leaves the cell invalid
    in a fused map where it was invalid or that was out of date.  The
    positions and the resolution are finite, and [erfc 0 = 1]. *)
Theorem diverged_lone_cell_is_not_fused
    {lib : GridMapLib} (em : ElevationMap)
    (regionTopLeft size index : Array2i) (px py cx cy r : R) :
  let raw := rawMap_ em in
  let info := neighbourhood raw index in
  any size = true ->
  getTimestamp (fusedMap_ em) <> getTimestamp raw
  \/ isValid (fusedMap_ em) index = false ->
  erfc (Fin 0) = Fin 1 ->
  getPosition raw index = (Fin px, Fin py) ->
  submapPosition info = (Fin cx, Fin cy) ->
  resolution_ raw = Fin r ->
  at_ raw "horizontal_variance_x" index = PInf ->
  at_ raw "horizontal_variance_y" index = PInf ->
  filter (isValid raw)
    (SubmapIterator raw (topLeftIndex info) (submapBufferSize info))
  = [index] ->
  isValid (fusedMap_ (snd (fuse em regionTopLeft size))) index = false.
Proof.
  intros raw info. subst info raw.
  intros Hsize Hfresh Hmid Hp Hsp Hr Hx Hy Halone.
  pose proof (@candidates_alone lib (rawMap_ em) index Halone) as Hcs.
  rewrite Hsp in Hcs.
  rewrite (@weight_flat lib (rawMap_ em) index px py cx cy r
             Hmid Hp Hr Hx Hy) in Hcs.
  assert (Hdiscard : forall fusedMap,
             fuseCell (rawMap_ em) fusedMap index = fusedMap).
  { intros fusedMap. apply fuseCell_discarded.
    - now rewrite Hcs.
    - rewrite Hcs, fusedMean_weightless. apply andb_false_r. }
  unfold isValid. rewrite !at_fuse by trivial. rewrite Hdiscard.
  destruct (existsb _ _);
    destruct (getTimestamp (fusedMap_ em) =? getTimestamp (rawMap_ em))%N
      eqn:Et; try reflexivity;
    (destruct Hfresh as [Hne|Hinv];
     [apply N.eqb_eq in Et; contradiction | exact Hinv]).
Qed.

Lemma diverged_lone_cell_is_not_fused_witness :
  isValid (fusedMap_ (snd (fuse divergedExampleMap (0, 0)%Z (1, 1)%Z)))
          (0, 0)%Z
  = false.
Proof.
  apply (@diverged_lone_cell_is_not_fused oneCell divergedExampleMap
           (0, 0)%Z (1, 1)%Z (0, 0)%Z 0 0 0 0 1).
  - reflexivity.
  - left. discriminate.
  - exact erfcShape_zero.
  - reflexivity.
  - reflexivity.
  - reflexivity.
  - reflexivity.
  - reflexivity.
  - exact alone_in_divergedExampleMap.
Defined.

(** ** Reset *)

(** X20. [reset] returns true and leaves every cell of both maps invalid,
    the parameters and both timestamps as they were; a fusion pass after
    it, over any region, leaves every cell of the fused map invalid. *)
Theorem reset_empties_both_maps {lib : GridMapLib} (em : ElevationMap)
    (regionTopLeft size index : Array2i) :
  let em' := snd (reset em) in
  fst (reset em) = true
  /\ isValid (rawMap_ em') index = false
  /\ isValid (fusedMap_ em') index = false
  /\ getTimestamp (rawMap_ em') = getTimestamp (rawMap_ em)
  /\ getTimestamp (fusedMap_ em') = getTimestamp (fusedMap_ em)
  /\ withFusedMap (withRawMap em' (rawMap_ em)) (fusedMap_ em) = em
  /\ isValid (fusedMap_ (snd (fuse em' regionTopLeft size))) index = false.
Proof.
  intros em'. subst em'. repeat split; try now destruct em.
  destruct (any size) eqn:Hsize.
  - unfold isValid. rewrite !at_fuse by trivial.
    rewrite fuseCell_hole by reflexivity.
    destruct (existsb _ _); now destruct (_ =? _)%N.
  - now rewrite fuse_skipped.
Qed.

(** ** The fused map as a function of the snapshot *)

(** X21. What a pass leaves in an out-of-date fused map depends on the raw
    map alone: two states with the same raw map, both with an out-of-date
    fused map, have after the same pass the same value in every layer of
    every fused cell, and the same fused timestamp. *)
Theorem fuse_depends_on_the_snapshot {lib : GridMapLib}
    (em1 em2 : ElevationMap) (regionTopLeft size index : Array2i)
    (layer : string) :
  rawMap_ em1 = rawMap_ em2 ->
  getTimestamp (fusedMap_ em1) <> getTimestamp (rawMap_ em1) ->
  getTimestamp (fusedMap_ em2) <> getTimestamp (rawMap_ em2) ->
  any size = true ->
  at_ (fusedMap_ (snd (fuse em1 regionTopLeft size))) layer index
  = at_ (fusedMap_ (snd (fuse em2 regionTopLeft size))) layer index
  /\ getTimestamp (fusedMap_ (snd (fuse em1 regionTopLeft size)))
     = getTimestamp (fusedMap_ (snd (fuse em2 regionTopLeft size))).
Proof.
  intros Hraw Ht1 Ht2 Hsize. split.
  - rewrite !at_fuse by trivial.
    apply N.eqb_neq in Ht1, Ht2. rewrite Ht1, Ht2, Hraw.
    destruct (existsb _ _); [|reflexivity].
    now apply fuseCell_local.
  - destruct (fuse_some_extent em1 regionTopLeft size Hsize) as [_ ->].
    destruct (fuse_some_extent em2 regionTopLeft size Hsize) as [_ ->].
    now rewrite Hraw.
Qed.

Lemma fuse_depends_on_the_snapshot_witness :
  at_ (fusedMap_ (snd (fuse sharpExampleMap (0, 0)%Z (1, 1)%Z)))
      "elevation" (0, 0)%Z
  = at_ (fusedMap_
           (snd (fuse (withFusedMap sharpExampleMap
                         (cellMap (Fin 9) (Fin 9) NaN NaN (Fin 9) 3))
                      (0, 0)%Z (1, 1)%Z)))
        "elevation" (0, 0)%Z.
Proof.
  apply (@fuse_depends_on_the_snapshot oneCell sharpExampleMap
           (withFusedMap sharpExampleMap
              (cellMap (Fin 9) (Fin 9) NaN NaN (Fin 9) 3))
           (0, 0)%Z (1, 1)%Z (0, 0)%Z "elevation").
  - reflexivity.
  - discriminate.
  - discriminate.
  - reflexivity.
Defined.

(** ** A mutation of the raw map, then a pass *)

Lemma update_keeps_fused (em : ElevationMap)
    (varianceUpdate hvxUpdate hvyUpdate : Matrix) (time : Time) :
  fusedMap_ (snd (update em varianceUpdate hvxUpdate hvyUpdate time))
  = fusedMap_ em.
Proof.
  unfold update. now destruct (negb _).
Qed.

Lemma update_stamps (em : ElevationMap)
    (varianceUpdate hvxUpdate hvyUpdate : Matrix) (time : Time) :
  fst (update em varianceUpdate hvxUpdate hvyUpdate time) = true ->
  getTimestamp
    (rawMap_ (snd (update em varianceUpdate hvxUpdate hvyUpdate time)))
  = toNSec time.
Proof.
  unfold update. destruct (negb _); [discriminate | reflexivity].
Qed.

(** X22. After an update that succeeds, or an [add], whose time is not the
    fused timestamp, the next pass drops what was fused before: a cell its
    iterator does not visit is invalid afterwards, whatever the fused map
    held. *)
Theorem fuse_after_a_mutation_drops_fused_cells {lib : GridMapLib}
    (em : ElevationMap) (regionTopLeft size index : Array2i) :
  any size = true ->
  (forall varianceUpdate hvxUpdate hvyUpdate time,
     let em1 :=
       snd (update em varianceUpdate hvxUpdate hvyUpdate time) in
     fst (update em varianceUpdate hvxUpdate hvyUpdate time) = true ->
     getTimestamp (fusedMap_ em) <> toNSec time ->
     ~ In index (SubmapIterator (rawMap_ em1) regionTopLeft size) ->
     isValid (fusedMap_ (snd (fuse em1 regionTopLeft size))) index = false)
  /\ (forall pointCloud pointCloudVariances,
        let em1 := snd (add em pointCloud pointCloudVariances) in
        getTimestamp (fusedMap_ em) <> uint64 (1000 * stamp pointCloud) ->
        ~ In index (SubmapIterator (rawMap_ em1) regionTopLeft size) ->
        isValid (fusedMap_ (snd (fuse em1 regionTopLeft size))) index
        = false).
Proof.
  intros Hsize. split.
  - intros vu hxu hyu time em1 Hok Ht Hout.
    apply existsb_not_visited in Hout.
    unfold isValid. rewrite !at_fuse by trivial. rewrite Hout.
    unfold em1. rewrite update_keeps_fused, update_stamps by trivial.
    apply N.eqb_neq in Ht. now rewrite Ht.
  - intros pointCloud pointCloudVariances em1 Ht Hout.
    apply existsb_not_visited in Hout.
    unfold isValid. rewrite !at_fuse by trivial. rewrite Hout.
    assert (Hf : fusedMap_ em1 = fusedMap_ em).
    { unfold em1. rewrite add_unfold. cbn [snd fusedMap_ withRawMap].
      cbv zeta. cbn [fusedMap_ withRawMap clean snd].
      set (em0 := fold_left _ _ em).
      destruct (@loop_keeps lib pointCloud pointCloudVariances
                  (seq 0 (List.length (points pointCloud))) em) as [Hl _].
      fold em0 in Hl. now rewrite <- Hl. }
    assert (Hs : getTimestamp (rawMap_ em1)
                 = uint64 (1000 * stamp pointCloud)).
    { unfold em1. now rewrite add_unfold. }
    rewrite Hf, Hs. apply N.eqb_neq in Ht. now rewrite Ht.
Qed.

Lemma fuse_after_a_mutation_drops_fused_cells_witness :
  let delta := mkMatrix 1 1 (fun _ => Fin (1 / 1000)) in
  let em1 := snd (update fusedExampleMap delta delta delta (mkTime 1 2)) in
  isValid (fusedMap_ (snd (fuse em1 (5, 5)%Z (1, 1)%Z))) (0, 0)%Z = false.
Proof.
  pose (delta := mkMatrix 1 1 (fun _ => Fin (1 / 1000))).
  destruct (@fuse_after_a_mutation_drops_fused_cells oneCell
              fusedExampleMap (5, 5)%Z (1, 1)%Z (0, 0)%Z eq_refl)
    as (Hupdate & _).
  apply (Hupdate delta delta delta (mkTime 1 2)).
  - reflexivity.
  - discriminate.
  - simpl. intros [H|[]]. discriminate H.
Defined.

